(** * Bank of Thailand MCP server (src/index.ts): model and properties

    A shallow embedding of the server's validators, upstream request
    gateway, tool handlers and resources, followed by the properties
    proved about them.

    Conventions of the embedding.
    - A JavaScript string is represented by its UTF-8 encoding, a
      [string] of bytes, which every string without unpaired surrogate
      has.  The operations of the source inspect ASCII characters only
      and copy or reject the others, so that they act on the encoding
      as they act on the UTF-16 code units.
    - [process.env], the upstream service and the clock are explicit
      arguments: a handler is a function of the environment it reads
      and of the behaviour of the upstream for the request it issues,
      and returns the effects it performs together with the way its
      promise settles. *)

From Stdlib Require Import String Ascii List Bool Arith NArith ZArith Lia.
From Stdlib Require Import DecimalString DecimalN.
Import ListNotations.
Open Scope string_scope.

(* ================================================================= *)
(** * Part I: definitions *)
(* ================================================================= *)

(** ** Strings *)

Fixpoint forall_chars (p : ascii -> bool) (s : string) : bool :=
  match s with
  | EmptyString => true
  | String c s' => p c && forall_chars p s'
  end.

(** The decimal digits [0-9]. *)
Definition is_digit (c : ascii) : bool :=
  (48 <=? N_of_ascii c)%N && (N_of_ascii c <=? 57)%N.

(** [s.includes(t)] *)
Fixpoint includes (s t : string) : bool :=
  String.prefix t s ||
  match s with
  | EmptyString => false
  | String _ s' => includes s' t
  end.

(** ** Regular expressions

    The fragment of ECMAScript patterns used by the period schemas:
    the assertions [^] and [$] (no [m] flag, so they hold at the two
    ends of the input only), literal characters, the escape [\d], a
    character-class range and the counted quantifier [{n}]. *)

Module RegExp.

Inductive regex : Type :=
| Bol                               (* ^ *)
| Eol                               (* $ *)
| Lit (c : ascii)
| Digit                             (* \d: [0-9], whatever the flags *)
| Range (lo hi : ascii)             (* [lo-hi] *)
| Cat (r1 r2 : regex)
| Repeat (n : nat) (r : regex).     (* r{n} *)

Definition in_range (lo hi c : ascii) : bool :=
  (N_of_ascii lo <=? N_of_ascii c)%N && (N_of_ascii c <=? N_of_ascii hi)%N.

Definition one_char (p : ascii -> bool) (pos : nat) (s : string)
    (k : nat -> string -> bool) : bool :=
  match s with
  | EmptyString => false
  | String c s' => if p c then k (S pos) s' else false
  end.

(** The backtracking matcher: [matches r pos s k] tries [r] at index
    [pos], where [s] is the input from [pos] on, and hands the index
    and the input that remain to the continuation [k]. *)
Fixpoint matches (r : regex) (pos : nat) (s : string)
    (k : nat -> string -> bool) {struct r} : bool :=
  match r with
  | Bol => if Nat.eqb pos 0 then k pos s else false
  | Eol => match s with EmptyString => k pos s | String _ _ => false end
  | Lit c => one_char (Ascii.eqb c) pos s k
  | Digit => one_char is_digit pos s k
  | Range lo hi => one_char (in_range lo hi) pos s k
  | Cat r1 r2 => matches r1 pos s (fun pos' s' => matches r2 pos' s' k)
  | Repeat n r1 =>
      (fix rep (n : nat) (pos : nat) (s : string) : bool :=
         match n with
         | O => k pos s
         | S n' => matches r1 pos s (fun pos' s' => rep n' pos' s')
         end) n pos s
  end.

(** [RegExp.prototype.test] for a pattern without the [g] and [y]
    flags: a match is looked for from every index of the input. *)
Fixpoint search (r : regex) (pos : nat) (s : string) : bool :=
  matches r pos s (fun _ _ => true) ||
  match s with
  | EmptyString => false
  | String _ s' => search r (S pos) s'
  end.

Definition test (r : regex) (s : string) : bool := search r 0 s.

Fixpoint sequence (rs : list regex) : regex :=
  match rs with
  | [] => Repeat 0 Digit
  | [r] => r
  | r :: rs' => Cat r (sequence rs')
  end.

End RegExp.

Import RegExp.

(** ** Zod schemas (index.ts, lines 12-22) *)

Definition SUPPORTED_CURRENCIES : list string :=
  [ "USD"; "GBP"; "EUR"; "JPY"; "CNY"; "HKD"; "SGD"; "MYR"; "TWD"; "KRW";
    "IDR"; "INR"; "AUD"; "NZD"; "CHF"; "DKK"; "NOK"; "SEK"; "AED"; "PKR" ].

(** The outcome of checking an input against a schema: the parsed
    data, or an issue, with the message the schema gives for it when
    it gives one. *)
Inductive parse_result (A : Type) : Type :=
| Success (data : A)
| Failure (message : option string).
Arguments Success {A} data.
Arguments Failure {A} message.

Definition is_success {A} (r : parse_result A) : bool :=
  match r with Success _ => true | Failure _ => false end.

(** [z.string().regex(pattern, message)] *)
Record ZodString : Type := { pattern : regex; message : string }.

Definition safeParse (schema : ZodString) (input : string) : parse_result string :=
  if test (pattern schema) input then Success input
  else Failure (Some (message schema)).

Definition accepts (schema : ZodString) (input : string) : bool :=
  is_success (safeParse schema input).

(** /^\d{4}-\d{2}-\d{2}$/ *)
Definition dailyPeriodSchema : ZodString :=
  {| pattern := sequence [Bol; Repeat 4 Digit; Lit "-"; Repeat 2 Digit; Lit "-";
                     Repeat 2 Digit; Eol];
     message := "Must be YYYY-MM-DD format" |}.

(** /^\d{4}-\d{2}$/ *)
Definition monthlyPeriodSchema : ZodString :=
  {| pattern := sequence [Bol; Repeat 4 Digit; Lit "-"; Repeat 2 Digit; Eol];
     message := "Must be YYYY-MM format" |}.

(** /^\d{4}-Q[1-4]$/ *)
Definition quarterlyPeriodSchema : ZodString :=
  {| pattern := sequence [Bol; Repeat 4 Digit; Lit "-"; Lit "Q"; Range "1" "4"; Eol];
     message := "Must be YYYY-QN format (e.g., 2024-Q1)" |}.

(** /^\d{4}$/ *)
Definition annualPeriodSchema : ZodString :=
  {| pattern := sequence [Bol; Repeat 4 Digit; Eol];
     message := "Must be YYYY format" |}.

(** [z.enum(SUPPORTED_CURRENCIES).optional()]: the input is [None]
    when the argument is [undefined]. *)
Definition currencySchema (input : option string) : parse_result (option string) :=
  match input with
  | None => Success None
  | Some s =>
      if existsb (String.eqb s) SUPPORTED_CURRENCIES then Success (Some s)
      else Failure None
  end.

(** *** The period grammars in the words of the specification

    "4 digits, dash, 2 digits, dash, 2 digits", and so on: the
    languages the schemas are compared with. *)

Definition digits (n : nat) (s : string) : Prop :=
  String.length s = n /\ forall_chars is_digit s = true.

Definition daily_grammar (s : string) : Prop :=
  exists y m d, s = y ++ "-" ++ m ++ "-" ++ d /\
                digits 4 y /\ digits 2 m /\ digits 2 d.

Definition monthly_grammar (s : string) : Prop :=
  exists y m, s = y ++ "-" ++ m /\ digits 4 y /\ digits 2 m.

Definition quarterly_grammar (s : string) : Prop :=
  exists y q, s = y ++ "-Q" ++ String q "" /\ digits 4 y /\
              In q ["1"; "2"; "3"; "4"]%char.

Definition annual_grammar (s : string) : Prop := digits 4 s.

(** ** JSON values, [JSON.stringify] and [JSON.parse]

    The values [response.json()] can produce.  A number is an IEEE
    double.  The conversion between doubles and decimal literals is
    the runtime's; it is not reproduced here.  A finite number other
    than -0 is represented by the decimal literal [Number::toString]
    gives for it, and reading a literal back rounds it to that same
    number (ECMA-262, 6.1.6.1.20).  -0 and the infinities, which
    [JSON.parse] returns for literals such as [-0] and [1e999], are
    values of their own, because [JSON.stringify] treats them
    differently. *)

Module JSON.

Inductive number : Type :=
| Finite (literal : string)
| NegZero
| Infinite (negative : bool).

(** An object is the list of its own properties in enumeration order. *)
#[local] Unset Elimination Schemes.
Inductive json : Type :=
| JNull
| JBool (b : bool)
| JNumber (n : number)
| JString (s : string)
| JArray (elements : list json)
| JObject (members : list (string * json)).
#[local] Set Elimination Schemes.

Definition LF : ascii := "010"%char.
Definition QUOTE : ascii := "034"%char.

(** *** Serialization (ECMA-262, 25.5.2) *)

Definition hex_digit (n : N) : ascii :=
  if (n <? 10)%N then ascii_of_N (48 + n) else ascii_of_N (87 + n).

(** One character of a quoted string: the control characters, the
    quote and the backslash are escaped. *)
Definition escape_char (c : ascii) : string :=
  match N_of_ascii c with
  | 8%N => "\b"
  | 9%N => "\t"
  | 10%N => "\n"
  | 12%N => "\f"
  | 13%N => "\r"
  | 34%N => String "\" (String QUOTE "")
  | 92%N => "\\"
  | n =>
      if (n <? 32)%N
      then "\u00" ++ String (hex_digit (n / 16)) (String (hex_digit (n mod 16)) "")
      else String c ""
  end.

Fixpoint escape (s : string) : string :=
  match s with
  | EmptyString => ""
  | String c s' => escape_char c ++ escape s'
  end.

Definition QuoteJSONString (s : string) : string :=
  String QUOTE (escape s ++ String QUOTE "").

(** [Number::toString], and [null] for the numbers that are not finite. *)
Definition SerializeNumber (n : number) : string :=
  match n with
  | Finite literal => literal
  | NegZero => "0"
  | Infinite _ => "null"
  end.

Definition wrap (open close stepback indent : string) (partial : list string) : string :=
  match partial with
  | [] => open ++ close
  | _ :: _ =>
      open ++ String LF indent ++
      String.concat ("," ++ String LF indent) partial ++
      String LF stepback ++ close
  end.

(** [SerializeJSONProperty] with a gap of [gap] and no replacer;
    [indent] is the indentation of the enclosing structure. *)
Fixpoint SerializeJSONProperty (gap indent : string) (v : json) : string :=
  match v with
  | JNull => "null"
  | JBool true => "true"
  | JBool false => "false"
  | JNumber n => SerializeNumber n
  | JString s => QuoteJSONString s
  | JArray elements =>
      wrap "[" "]" indent (indent ++ gap)
        (map (SerializeJSONProperty gap (indent ++ gap)) elements)
  | JObject members =>
      wrap "{" "}" indent (indent ++ gap)
        (map (fun m => QuoteJSONString (fst m) ++ ": " ++
                       SerializeJSONProperty gap (indent ++ gap) (snd m))
             members)
  end.

(** [JSON.stringify(value, null, 2)] *)
Definition stringify2 (v : json) : string := SerializeJSONProperty "  " "" v.

(** *** Parsing (ECMA-262, 25.5.1, and ECMA-404) *)

Definition is_ws (c : ascii) : bool :=
  match N_of_ascii c with
  | 9%N | 10%N | 13%N | 32%N => true
  | _ => false
  end.

Fixpoint skip_ws (s : string) : string :=
  match s with
  | String c s' => if is_ws c then skip_ws s' else s
  | EmptyString => s
  end.

(** The longest prefix whose characters satisfy [p], and what follows. *)
Fixpoint span (p : ascii -> bool) (s : string) : string * string :=
  match s with
  | String c s' =>
      if p c then let (a, b) := span p s' in (String c a, b) else ("", s)
  | EmptyString => ("", "")
  end.

(** [Some rest] when [s] is [p] followed by [rest]. *)
Fixpoint strip_prefix (p s : string) : option string :=
  match p with
  | EmptyString => Some s
  | String a p' =>
      match s with
      | String b s' => if Ascii.eqb a b then strip_prefix p' s' else None
      | EmptyString => None
      end
  end.

Definition hex_value (c : ascii) : option N :=
  let n := N_of_ascii c in
  if (48 <=? n)%N && (n <=? 57)%N then Some (n - 48)%N
  else if (65 <=? n)%N && (n <=? 70)%N then Some (n - 55)%N
  else if (97 <=? n)%N && (n <=? 102)%N then Some (n - 87)%N
  else None.

(** The UTF-8 encoding of a code point of the basic plane; a
    surrogate has none. *)
Definition utf8 (n : N) : option string :=
  if (n <? 128)%N then Some (String (ascii_of_N n) "")
  else if (n <? 2048)%N then
    Some (String (ascii_of_N (192 + n / 64))
            (String (ascii_of_N (128 + n mod 64)) ""))
  else if (55296 <=? n)%N && (n <=? 57343)%N then None
  else
    Some (String (ascii_of_N (224 + n / 4096))
            (String (ascii_of_N (128 + (n / 64) mod 64))
               (String (ascii_of_N (128 + n mod 64)) ""))).

(** The character written [\uXXXX]; [None] too for a surrogate, which
    is outside the representation (an escaped surrogate pair included). *)
Definition unicode_escape (a b c d : ascii) : option string :=
  match hex_value a, hex_value b, hex_value c, hex_value d with
  | Some x, Some y, Some z, Some w => utf8 (((x * 16 + y) * 16 + z) * 16 + w)
  | _, _, _, _ => None
  end.

(** The characters of a string literal after its opening quote, up to
    the closing one. *)
Fixpoint parse_chars (s : string) : option (string * string) :=
  match s with
  | EmptyString => None
  | String c s' =>
      if Ascii.eqb c QUOTE then Some ("", s')
      else if Ascii.eqb c "\" then
        match s' with
        | String e s'' =>
            let simple (x : ascii) :=
              match parse_chars s'' with
              | Some (str, rest) => Some (String x str, rest)
              | None => None
              end in
            match N_of_ascii e with
            | 34%N => simple QUOTE
            | 92%N => simple "\"%char
            | 47%N => simple "/"%char
            | 98%N => simple "008"%char
            | 102%N => simple "012"%char
            | 110%N => simple "010"%char
            | 114%N => simple "013"%char
            | 116%N => simple "009"%char
            | 117%N =>
                match s'' with
                | String h1 (String h2 (String h3 (String h4 s5))) =>
                    match unicode_escape h1 h2 h3 h4, parse_chars s5 with
                    | Some x, Some (str, rest) => Some (x ++ str, rest)
                    | _, _ => None
                    end
                | _ => None
                end
            | _ => None
            end
        | EmptyString => None
        end
      else if (N_of_ascii c <? 32)%N then None
      else
        match parse_chars s' with
        | Some (str, rest) => Some (String c str, rest)
        | None => None
        end
  end.

(** The characters a number literal is made of. *)
Definition is_numchar (c : ascii) : bool :=
  is_digit c ||
  match N_of_ascii c with
  | 43%N | 45%N | 46%N | 69%N | 101%N => true
  | _ => false
  end.

Fixpoint digits_value (acc : Z) (s : string) : Z :=
  match s with
  | EmptyString => acc
  | String c s' => digits_value (10 * acc + Z.of_N (N_of_ascii c) - 48)%Z s'
  end.

Definition nonempty (s : string) : bool :=
  match s with EmptyString => false | String _ _ => true end.

(** The JSON number grammar: an optional minus sign, an integer part
    without superfluous leading zero, an optional fraction and an
    optional exponent.  The result is the sign and the integers [m]
    and [e] for which the literal denotes [m * 10^e]. *)
Definition read_sign (s : string) : bool * string :=
  match strip_prefix "-" s with
  | Some r => (true, r)
  | None => (false, s)
  end.

(** The integer part is a single [0] or does not start with [0]. *)
Definition int_ok (ip : string) : bool :=
  match strip_prefix "0" ip with
  | Some r => negb (nonempty r)
  | None => nonempty ip
  end.

(** The digits of the fraction, if there is one, and what follows. *)
Definition read_fraction (s : string) : option (string * string) :=
  match strip_prefix "." s with
  | Some r =>
      let (fp, rest) := span is_digit r in
      if nonempty fp then Some (fp, rest) else None
  | None => Some ("", s)
  end.

(** The exponent, 0 if there is none; nothing may follow it. *)
Definition read_exponent (s : string) : option Z :=
  match s with
  | EmptyString => Some 0%Z
  | String x r =>
      if Ascii.eqb x "e" || Ascii.eqb x "E" then
        let (eneg, r1) :=
          match strip_prefix "-" r, strip_prefix "+" r with
          | Some r', _ => (true, r')
          | None, Some r' => (false, r')
          | None, None => (false, r)
          end in
        if nonempty r1 && forall_chars is_digit r1
        then Some (if eneg then - digits_value 0 r1 else digits_value 0 r1)%Z
        else None
      else None
  end.

Definition read_number (tok : string) : option (bool * Z * Z) :=
  let (neg, s1) := read_sign tok in
  let (ip, s2) := span is_digit s1 in
  match read_fraction s2 with
  | None => None
  | Some (fp, s3) =>
      match read_exponent s3 with
      | Some ex =>
          if int_ok ip
          then Some (neg, digits_value 0 (ip ++ fp),
                     (ex - Z.of_nat (String.length fp))%Z)
          else None
      | None => None
      end
  end.

(** Rounding to the nearest double, ties to even, sends a magnitude of
    [2^1024 - 2^970] or more to an infinity and one of [2^-1075] or
    less to a zero. *)
Definition overflows (m e : Z) : bool :=
  if (0 <=? e)%Z then (2 ^ 1024 - 2 ^ 970 <=? m * 10 ^ e)%Z
  else ((2 ^ 1024 - 2 ^ 970) * 10 ^ (- e) <=? m)%Z.

Definition underflows (m e : Z) : bool :=
  if (0 <=? e)%Z then (m =? 0)%Z
  else (m * 2 ^ 1075 <=? 10 ^ (- e))%Z.

(** The number a literal denotes. *)
Definition number_of_literal (tok : string) : option number :=
  match read_number tok with
  | None => None
  | Some (neg, m, e) =>
      if underflows m e then Some (if neg then NegZero else Finite "0")
      else if overflows m e then Some (Infinite neg)
      else Some (Finite tok)
  end.

Fixpoint lookup {A} (k : string) (l : list (string * A)) : option A :=
  match l with
  | [] => None
  | (k', a) :: l' => if String.eqb k k' then Some a else lookup k l'
  end.

(** [CreateDataProperty]: a key met again keeps its place and takes
    the new value. *)
Fixpoint set_member (k : string) (v : json) (ms : list (string * json))
    : list (string * json) :=
  match ms with
  | [] => [(k, v)]
  | (k', v') :: ms' =>
      if String.eqb k k' then (k, v) :: ms' else (k', v') :: set_member k v ms'
  end.

(** The recursive-descent parser.  [fuel] bounds the number of nested
    calls; the length of the text is always enough (see [parse]). *)
Fixpoint parse_value (fuel : nat) (s : string) {struct fuel}
    : option (json * string) :=
  match fuel with
  | O => None
  | S fuel' =>
      let s0 := skip_ws s in
      match strip_prefix "null" s0, strip_prefix "true" s0,
            strip_prefix "false" s0 with
      | Some rest, _, _ => Some (JNull, rest)
      | None, Some rest, _ => Some (JBool true, rest)
      | None, None, Some rest => Some (JBool false, rest)
      | None, None, None =>
          match s0 with
          | EmptyString => None
          | String c r =>
              if Ascii.eqb c QUOTE then
                match parse_chars r with
                | Some (str, rest) => Some (JString str, rest)
                | None => None
                end
              else if Ascii.eqb c "[" then
                match strip_prefix "]" (skip_ws r) with
                | Some rest => Some (JArray [], rest)
                | None => parse_elements fuel' r []
                end
              else if Ascii.eqb c "{" then
                match strip_prefix "}" (skip_ws r) with
                | Some rest => Some (JObject [], rest)
                | None => parse_members fuel' r []
                end
              else if Ascii.eqb c "-" || is_digit c then
                let (tok, rest) := span is_numchar s0 in
                match number_of_literal tok with
                | Some n => Some (JNumber n, rest)
                | None => None
                end
              else None
          end
      end
  end
with parse_elements (fuel : nat) (s : string) (acc : list json) {struct fuel}
    : option (json * string) :=
  match fuel with
  | O => None
  | S fuel' =>
      match parse_value fuel' s with
      | Some (v, r) =>
          match strip_prefix "," (skip_ws r), strip_prefix "]" (skip_ws r) with
          | Some rest, _ => parse_elements fuel' rest (acc ++ [v])
          | None, Some rest => Some (JArray (acc ++ [v]), rest)
          | None, None => None
          end
      | None => None
      end
  end
with parse_members (fuel : nat) (s : string) (acc : list (string * json))
    {struct fuel} : option (json * string) :=
  match fuel with
  | O => None
  | S fuel' =>
      match strip_prefix (String QUOTE "") (skip_ws s) with
      | Some r =>
          match parse_chars r with
          | Some (key, r1) =>
              match strip_prefix ":" (skip_ws r1) with
              | Some r2 =>
                  match parse_value fuel' r2 with
                  | Some (v, r3) =>
                      match strip_prefix "," (skip_ws r3),
                            strip_prefix "}" (skip_ws r3) with
                      | Some rest, _ =>
                          parse_members fuel' rest (set_member key v acc)
                      | None, Some rest =>
                          Some (JObject (set_member key v acc), rest)
                      | None, None => None
                      end
                  | None => None
                  end
              | None => None
              end
          | None => None
          end
      | None => None
      end
  end.

(** [JSON.parse(text)] without a reviver; [None] stands for the
    [SyntaxError]. *)
Definition parse (text : string) : option json :=
  match parse_value (S (String.length text)) text with
  | Some (v, rest) =>
      match skip_ws rest with
      | EmptyString => Some v
      | String _ _ => None
      end
  | None => None
  end.

(** *** The values that survive serialization

    Every number is finite, is not -0 and is carried by a literal that
    denotes it; no object has two properties of the same name. *)

Definition number_eqb (a b : number) : bool :=
  match a, b with
  | Finite x, Finite y => String.eqb x y
  | NegZero, NegZero => true
  | Infinite x, Infinite y => Bool.eqb x y
  | _, _ => false
  end.

Definition plain_number (n : number) : bool :=
  match n with
  | Finite literal =>
      match number_of_literal literal with
      | Some n' => number_eqb n' n
      | None => false
      end
  | _ => false
  end.

Fixpoint distinct (l : list string) : bool :=
  match l with
  | [] => true
  | k :: l' => negb (existsb (String.eqb k) l') && distinct l'
  end.

Fixpoint plain (v : json) : bool :=
  match v with
  | JNumber n => plain_number n
  | JArray elements => forallb plain elements
  | JObject members =>
      distinct (map fst members) && forallb (fun m => plain (snd m)) members
  | _ => true
  end.

Fixpoint size (v : json) : nat :=
  match v with
  | JArray elements => S (fold_right (fun x n => S (size x + n)) 0 elements)
  | JObject members => S (fold_right (fun m n => S (size (snd m) + n)) 0 members)
  | _ => 1
  end.

End JSON.

Import JSON.

(** ** Promises, thrown values and the upstream service *)

(** A thrown value: an [Error] object with its [name] and [message],
    or something that is not an [Error], known by what [String(...)]
    makes of it. *)
Inductive thrown : Type :=
| ErrorObject (name message : string)
| NonError (as_string : string).

(** [new Error(message)] *)
Definition Error (message : string) : thrown := ErrorObject "Error" message.

(** The reason of [controller.abort()], with which an aborted [fetch]
    rejects. *)
Definition AbortError : thrown :=
  ErrorObject "AbortError" "This operation was aborted".

Inductive settled (A : Type) : Type :=
| Fulfilled (value : A)
| Rejected (reason : thrown).
Arguments Fulfilled {A} value.
Arguments Rejected {A} reason.

(** How a promise ends: it settles [t] milliseconds after the call
    started, or it stays pending for ever. *)
Inductive promise (A : Type) : Type :=
| Settles (t : N) (r : settled A)
| Pending.
Arguments Settles {A} t r.
Arguments Pending {A}.

(** A response of the upstream: its status, and how [response.json()]
    ends, counted from the arrival of the response.  The content of
    the body is in [json_body] and nowhere else. *)
Record Response : Type := {
  status : N;
  json_body : promise JSON.json
}.

(** [response.ok] *)
Definition ok (r : Response) : bool :=
  (200 <=? status r)%N && (status r <=? 299)%N.

Record Request : Type := {
  method : string;
  url : string;
  headers : list (string * string)
}.

(** What the network does with a request that nobody aborts: the
    response head arrives after [t] ms, the request fails after [t]
    ms, or nothing ever comes back. *)
Inductive behaviour : Type :=
| Responds (t : N) (r : Response)
| Fails (t : N) (e : thrown)
| Silent.

Definition upstream : Type := Request -> behaviour.

(** The effects of a call, each with the time it happens at. *)
Inductive event : Type :=
| SetTimeout (delay : N)
| Fetch (request : Request)
| Abort
| ClearTimeout.

Definition trace : Type := list (N * event).

(** [process.env]: the variables that are set, the latest first. *)
Definition process_env : Type := list (string * string).

Definition getenv (env : process_env) (name : string) : option string :=
  lookup name env.

Definition setenv (name value : string) (env : process_env) : process_env :=
  (name, value) :: env.

(** ** URLs *)

(** A parsed URL: what precedes the query, and the query's
    name-value pairs.  [new_URL] is what the URL parser does with an
    absolute URL in serialized form that has a path and neither query
    nor fragment: it leaves it as it is.  The source applies it to a
    base constant followed by an endpoint constant only, and these are
    of that form; on other inputs the parser may rewrite the text or
    throw, which is not modelled, so that the properties of URLs are
    stated for the inputs of the source ([gateway_calls]). *)
Record URL : Type := {
  location : string;
  searchParams : list (string * string)
}.

Definition new_URL (input : string) : URL :=
  {| location := input; searchParams := [] |}.

Definition searchParams_append (u : URL) (name value : string) : URL :=
  {| location := location u;
     searchParams := (searchParams u ++ [(name, value)])%list |}.

Definition upper_hex_digit (n : N) : ascii :=
  if (n <? 10)%N then ascii_of_N (48 + n) else ascii_of_N (55 + n).

Definition percent (byte : N) : string :=
  String "%" (String (upper_hex_digit (byte / 16))
                     (String (upper_hex_digit (byte mod 16)) "")).

(** The application/x-www-form-urlencoded serializer, byte by byte:
    letters, digits and [*-._] stay, a space becomes [+], any other
    byte is percent-encoded. *)
Definition urlencode_char (c : ascii) : string :=
  let n := N_of_ascii c in
  if ((48 <=? n) && (n <=? 57) || (65 <=? n) && (n <=? 90) ||
      (97 <=? n) && (n <=? 122) ||
      (n =? 42) || (n =? 45) || (n =? 46) || (n =? 95))%N
  then String c ""
  else if (n =? 32)%N then "+"
  else percent n.

Fixpoint urlencode (s : string) : string :=
  match s with
  | EmptyString => ""
  | String c s' => urlencode_char c ++ urlencode s'
  end.

(** [url.toString()] *)
Definition URL_toString (u : URL) : string :=
  match searchParams u with
  | [] => location u
  | ps =>
      location u ++ "?" ++
      String.concat "&" (map (fun p => urlencode (fst p) ++ "=" ++ urlencode (snd p)) ps)
  end.

(** ** The gateway (index.ts, lines 7-9 and 24-74) *)

Definition REFERENCE_RATE_BASE_URL : string :=
  "https://gateway.api.bot.or.th/Stat-ReferenceRate/v2".
Definition EXCHANGE_RATE_BASE_URL : string :=
  "https://gateway.api.bot.or.th/Stat-ExchangeRate/v2".

Definition REQUEST_TIMEOUT_MS : N := 30000.

(** The truthiness of a value of type [string | undefined]. *)
Definition truthy (value : option string) : option string :=
  match value with
  | Some EmptyString => None
  | other => other
  end.

(** Lines 34-39.  [params] is [Object.entries(params)]; a value is
    [None] when the property holds [undefined]. *)
Definition add_param (u : URL) (entry : string * option string) : URL :=
  match truthy (snd entry) with
  | Some value => searchParams_append u (fst entry) value
  | None => u
  end.

Definition request_url (baseUrl endpoint : string)
    (params : list (string * option string)) : URL :=
  fold_left add_param params (new_URL (baseUrl ++ endpoint)).

(** [String(n)] for a status code. *)
Definition N_toString (n : N) : string := NilEmpty.string_of_uint (N.to_uint n).

(** [await fetch(url, { ..., signal })] with the timer of line 43
    running: the promise of [fetch] settles when the network answers,
    unless the timer fires before and aborts the request.  The result
    is whether the timer fired, the time, and how [fetch] settled. *)
Definition await_fetch (b : behaviour) : bool * N * settled Response :=
  match b with
  | Responds t r =>
      if (t <? REQUEST_TIMEOUT_MS)%N then (false, t, Fulfilled r)
      else (true, REQUEST_TIMEOUT_MS, Rejected AbortError)
  | Fails t e =>
      if (t <? REQUEST_TIMEOUT_MS)%N then (false, t, Rejected e)
      else (true, REQUEST_TIMEOUT_MS, Rejected AbortError)
  | Silent => (true, REQUEST_TIMEOUT_MS, Rejected AbortError)
  end.

(** [error instanceof Error && error.name === "AbortError"] *)
Definition is_abort (e : thrown) : bool :=
  match e with
  | ErrorObject name _ => String.eqb name "AbortError"
  | NonError _ => false
  end.

(** The promise an async function returns when it executes
    [return p] at time [t]: it follows [p]. *)
Definition follow {A} (t : N) (p : promise A) : promise A :=
  match p with
  | Settles delay r => Settles (t + delay) r
  | Pending => Pending
  end.

Definition CREDENTIAL_MESSAGE : string :=
  "BOT_API_KEY environment variable is not set. Please set it with your Bank of Thailand API key.".

(** How a block of statements ends: with [return] or with [throw]. *)
Inductive completion (A : Type) : Type :=
| Return (value : A)
| Throw (error : thrown).
Arguments Return {A} value.
Arguments Throw {A} error.

(** Lines 28-69.  The [finally] block runs when control leaves the
    [try] statement: after the [catch] block on the failure paths and,
    on the success path, when [return response.json()] is executed,
    that is before the promise of [response.json()] settles, since the
    source does not [await] it.  The promise of the call then follows
    that promise. *)
Definition makeApiRequest (env : process_env) (net : upstream)
    (baseUrl endpoint : string) (params : list (string * option string))
    : trace * promise JSON.json :=
  match truthy (getenv env "BOT_API_KEY") with
  | None => ([], Settles 0 (Rejected (Error CREDENTIAL_MESSAGE)))
  | Some apiKey =>
      let url := request_url baseUrl endpoint params in
      let request :=
        {| method := "GET";
           url := URL_toString url;
           headers := [("Authorization", apiKey); ("Accept", "application/json")] |} in
      let '(fired, t, fetched) := await_fetch (net request) in
      (* try *)
      let attempt : completion (promise JSON.json) :=
        match fetched with
        | Fulfilled response =>
            if negb (ok response)
            then Throw (Error ("API request failed with status " ++
                               N_toString (status response)))
            else Return (json_body response)
        | Rejected error => Throw error
        end in
      (* catch (error) *)
      let handled : completion (promise JSON.json) :=
        match attempt with
        | Throw error =>
            if is_abort error then Throw (Error "API request timed out")
            else Throw error
        | Return p => Return p
        end in
      (* finally *)
      ([(0%N, SetTimeout REQUEST_TIMEOUT_MS); (0%N, Fetch request)] ++
       (if fired then [(t, Abort)] else []) ++ [(t, ClearTimeout)],
       match handled with
       | Return p => follow t p
       | Throw error => Settles t (Rejected error)
       end)%list
  end.

(** Lines 72-74. *)
Definition formatResponse (data : JSON.json) : string := stringify2 data.

(** ** Tool handlers (index.ts, lines 86-296) *)

Record content_item : Type := { type : string; text : string }.

(** The response envelope; [isError] is [None] when the property is
    not set. *)
Record envelope : Type := {
  content : list content_item;
  isError : option bool
}.

(** [error instanceof Error ? error.message : String(error)] *)
Definition failure_message (error : thrown) : string :=
  match error with
  | ErrorObject _ message => message
  | NonError as_string => as_string
  end.

(** The body shared by the eight handlers: [try { const data = await
    request; return ... } catch (error) { return ... }]. *)
Definition respond (request : trace * promise JSON.json)
    : trace * promise envelope :=
  (fst request,
   match snd request with
   | Settles t (Fulfilled data) =>
       Settles t (Fulfilled
         {| content := [{| type := "text"; text := formatResponse data |}];
            isError := None |})
   | Settles t (Rejected error) =>
       Settles t (Fulfilled
         {| content := [{| type := "text";
                           text := "Error: " ++ failure_message error |}];
            isError := Some true |})
   | Pending => Pending
   end).

(** The arguments of a tool call after validation. *)
Record arguments : Type := {
  start_period : string;
  end_period : string;
  currency : option string
}.

Definition handler : Type :=
  process_env -> upstream -> arguments -> trace * promise envelope.

(** [{ start_period, end_period }] *)
Definition period_params (args : arguments) : list (string * option string) :=
  [("start_period", Some (start_period args));
   ("end_period", Some (end_period args))].

(** [currency || ""] *)
Definition or_empty (value : option string) : string :=
  match truthy value with
  | Some s => s
  | None => ""
  end.

(** [{ start_period, end_period, currency: currency || "" }] *)
Definition currency_params (args : arguments) : list (string * option string) :=
  [("start_period", Some (start_period args));
   ("end_period", Some (end_period args));
   ("currency", Some (or_empty (currency args)))].

(** The four handlers of the interbank family differ by the endpoint
    only, and so do the four of the exchange family. *)
Definition interbank (endpoint : string) : handler :=
  fun env net args =>
    respond (makeApiRequest env net REFERENCE_RATE_BASE_URL endpoint
               (period_params args)).

Definition exchange (endpoint : string) : handler :=
  fun env net args =>
    respond (makeApiRequest env net EXCHANGE_RATE_BASE_URL endpoint
               (currency_params args)).

Definition get_daily_interbank_rate : handler := interbank "/DAILY_REF_RATE/".
Definition get_monthly_interbank_rate : handler := interbank "/MONTHLY_REF_RATE/".
Definition get_quarterly_interbank_rate : handler := interbank "/QUARTERLY_REF_RATE/".
Definition get_annual_interbank_rate : handler := interbank "/ANNUAL_REF_RATE/".
Definition get_daily_exchange_rate : handler := exchange "/DAILY_AVG_EXG_RATE/".
Definition get_monthly_exchange_rate : handler := exchange "/MONTHLY_AVG_EXG_RATE/".
Definition get_quarterly_exchange_rate : handler := exchange "/QUARTERLY_AVG_EXG_RATE/".
Definition get_annual_exchange_rate : handler := exchange "/ANNUAL_AVG_EXG_RATE/".

(** The registrations of [server.tool], in source order. *)
Definition tools : list (string * handler) :=
  [ ("get_daily_interbank_rate", get_daily_interbank_rate);
    ("get_monthly_interbank_rate", get_monthly_interbank_rate);
    ("get_quarterly_interbank_rate", get_quarterly_interbank_rate);
    ("get_annual_interbank_rate", get_annual_interbank_rate);
    ("get_daily_exchange_rate", get_daily_exchange_rate);
    ("get_monthly_exchange_rate", get_monthly_exchange_rate);
    ("get_quarterly_exchange_rate", get_quarterly_exchange_rate);
    ("get_annual_exchange_rate", get_annual_exchange_rate) ].

(** ** Resources (index.ts, lines 302-380) *)

Definition descriptions : list (string * string) :=
  [ ("USD", "United States Dollar");
    ("GBP", "British Pound Sterling");
    ("EUR", "Euro");
    ("JPY", "Japanese Yen");
    ("CNY", "Chinese Yuan Renminbi");
    ("HKD", "Hong Kong Dollar");
    ("SGD", "Singapore Dollar");
    ("MYR", "Malaysian Ringgit");
    ("TWD", "Taiwan Dollar");
    ("KRW", "South Korean Won");
    ("IDR", "Indonesian Rupiah");
    ("INR", "Indian Rupee");
    ("AUD", "Australian Dollar");
    ("NZD", "New Zealand Dollar");
    ("CHF", "Swiss Franc");
    ("DKK", "Danish Krone");
    ("NOK", "Norwegian Krone");
    ("SEK", "Swedish Krona");
    ("AED", "UAE Dirham");
    ("PKR", "Pakistani Rupee") ].

(** An object literal inherits from [Object.prototype]: indexing it
    by one of these names finds a function (ECMA-262, 20.1.3 and
    B.2.2), and by [__proto__] the prototype object itself. *)
Definition inherited_functions : list string :=
  [ "constructor"; "hasOwnProperty"; "isPrototypeOf"; "propertyIsEnumerable";
    "toLocaleString"; "toString"; "valueOf";
    "__defineGetter__"; "__defineSetter__"; "__lookupGetter__"; "__lookupSetter__" ].

(** What indexing the table can give: the string of an own property,
    or one of the inherited members, which are not strings. *)
Inductive property : Type :=
| Text (s : string)
| InheritedFunction
| PrototypeObject.

Definition inherited (code : string) : option property :=
  if String.eqb code "__proto__" then Some PrototypeObject
  else if existsb (String.eqb code) inherited_functions then Some InheritedFunction
  else None.

(** [descriptions[code]]: an own property first, then the prototype;
    [None] is [undefined]. *)
Definition descriptions_get (code : string) : option property :=
  match lookup code descriptions with
  | Some description => Some (Text description)
  | None => inherited code
  end.

(** [descriptions[code] || code]: [undefined] and the empty string are
    the values that give way to the code. *)
Definition getCurrencyDescription (code : string) : property :=
  match descriptions_get code with
  | None | Some (Text EmptyString) => Text code
  | Some value => value
  end.

Record resource_content : Type := {
  uri : string;
  mimeType : string;
  resource_text : string
}.

(** The array the read callback of [bot://currencies] builds. *)
Definition currencyInfo : list (string * property) :=
  map (fun code => (code, getCurrencyDescription code)) SUPPORTED_CURRENCIES.

(** The object [{ code, description }] as [JSON.stringify] sees it: a
    property that holds a function is left out, and the prototype
    object has no enumerable property of its own. *)
Definition currency_entry (entry : string * property) : JSON.json :=
  JObject
    (("code", JString (fst entry)) ::
     match snd entry with
     | Text description => [("description", JString description)]
     | InheritedFunction => []
     | PrototypeObject => [("description", JObject [])]
     end).

(** The read callback of the resource [supported-currencies]: it takes
    no argument and reads neither the environment nor the network. *)
Definition read_currencies : list resource_content :=
  [ {| uri := "bot://currencies";
       mimeType := "application/json";
       resource_text := stringify2 (JArray (map currency_entry currencyInfo)) |} ].

(** ** Observations on runs *)

(** The requests a run sends to the network. *)
Definition requests (tr : trace) : list Request :=
  flat_map (fun te => match snd te with Fetch r => [r] | _ => [] end) tr.

(** The timers a run leaves to be cleared when it starts with [n] of
    them: [SetTimeout] adds one and [ClearTimeout] takes one away. *)
Fixpoint armed (tr : trace) (n : nat) : nat :=
  match tr with
  | [] => n
  | (_, SetTimeout _) :: tr' => armed tr' (S n)
  | (_, ClearTimeout) :: tr' => armed tr' (pred n)
  | _ :: tr' => armed tr' n
  end.

(** A server process lives through changes of its environment and
    tool calls.  The source keeps no state of its own between two
    calls: the environment is all a call depends on. *)
Inductive step : Type :=
| SetEnv (name value : string)
| CallTool (name : string) (args : arguments).

Fixpoint serve (env : process_env) (net : upstream) (steps : list step)
    : list (option (trace * promise envelope)) :=
  match steps with
  | [] => []
  | SetEnv name value :: steps' => serve (setenv name value env) net steps'
  | CallTool name args :: steps' =>
      match lookup name tools with
      | Some h => Some (h env net args)
      | None => None
      end :: serve env net steps'
  end.

(** The request the gateway sends for a URL when the credential is
    [key] (lines 46-53). *)
Definition credential_request (key : string) (u : URL) : Request :=
  {| method := "GET";
     url := URL_toString u;
     headers := [("Authorization", key); ("Accept", "application/json")] |}.

(** The network has not answered a request when the deadline comes. *)
Definition unanswered_at_deadline (b : behaviour) : bool :=
  match b with
  | Responds t _ | Fails t _ => negb (t <? REQUEST_TIMEOUT_MS)%N
  | Silent => true
  end.

(** The envelope of a failure with the given message. *)
Definition error_envelope (message : string) : envelope :=
  {| content := [{| type := "text"; text := "Error: " ++ message |}];
     isError := Some true |}.

(** The entries of a parameter mapping that have a value to send, in
    the words of the specification: those whose value is neither
    absent nor the empty string. *)
Definition present (params : list (string * option string))
    : list (string * string) :=
  flat_map (fun entry =>
              match snd entry with
              | Some (String c s) => [(fst entry, String c s)]
              | _ => []
              end) params.

(** ** Predicates used in the proofs about the parser *)

(** A string of white space. *)
Definition blank (s : string) : Prop := forall_chars is_ws s = true.

(** What may follow a number literal: nothing, or a character no
    number contains. *)
Definition ends_token (rest : string) : bool :=
  match rest with
  | EmptyString => true
  | String c _ => negb (is_numchar c)
  end.

(** The head of a string is a minus sign or a digit. *)
Definition starts_number (s : string) : bool :=
  match s with
  | EmptyString => false
  | String c _ => Ascii.eqb c "-" || is_digit c
  end.

(** The head of a serialized value: not a blank, and neither of the
    characters that close a structure. *)
Definition opens_value (s : string) : bool :=
  match s with
  | EmptyString => false
  | String c _ =>
      negb (is_ws c) && negb (Ascii.eqb "]" c) && negb (Ascii.eqb "}" c)
  end.

Definition elements_size (l : list json) : nat :=
  fold_right (fun x n => S (size x + n)) 0 l.

Definition members_size (l : list (string * json)) : nat :=
  fold_right (fun m n => S (size (snd m) + n)) 0 l.

(** A value is read back from its serialization at any indentation,
    whatever follows it, when the fuel covers its size. *)
Definition reads_back (gap : string) (v : json) : Prop :=
  forall fuel indent rest,
    size v <= fuel -> blank indent -> ends_token rest = true ->
    parse_value fuel (SerializeJSONProperty gap indent v ++ rest) = Some (v, rest).

(** ** Registrations (index.ts, lines 86-296)

    What [server.tool] is given for each tool besides its handler: the
    name and the shape of the arguments.  The two periods share one
    schema, and the tools of the exchange family take the optional
    currency as well. *)

Record registration : Type := {
  tool_name : string;
  period : ZodString;
  with_currency : bool;
  path : string
}.

Definition registrations : list registration :=
  [ {| tool_name := "get_daily_interbank_rate"; period := dailyPeriodSchema;
       with_currency := false; path := "/DAILY_REF_RATE/" |};
    {| tool_name := "get_monthly_interbank_rate"; period := monthlyPeriodSchema;
       with_currency := false; path := "/MONTHLY_REF_RATE/" |};
    {| tool_name := "get_quarterly_interbank_rate"; period := quarterlyPeriodSchema;
       with_currency := false; path := "/QUARTERLY_REF_RATE/" |};
    {| tool_name := "get_annual_interbank_rate"; period := annualPeriodSchema;
       with_currency := false; path := "/ANNUAL_REF_RATE/" |};
    {| tool_name := "get_daily_exchange_rate"; period := dailyPeriodSchema;
       with_currency := true; path := "/DAILY_AVG_EXG_RATE/" |};
    {| tool_name := "get_monthly_exchange_rate"; period := monthlyPeriodSchema;
       with_currency := true; path := "/MONTHLY_AVG_EXG_RATE/" |};
    {| tool_name := "get_quarterly_exchange_rate"; period := quarterlyPeriodSchema;
       with_currency := true; path := "/QUARTERLY_AVG_EXG_RATE/" |};
    {| tool_name := "get_annual_exchange_rate"; period := annualPeriodSchema;
       with_currency := true; path := "/ANNUAL_AVG_EXG_RATE/" |} ].

Definition base (r : registration) : string :=
  if with_currency r then EXCHANGE_RATE_BASE_URL else REFERENCE_RATE_BASE_URL.

(** The handler registered with the shape. *)
Definition run (r : registration) : handler :=
  if with_currency r then exchange (path r) else interbank (path r).

(** The base and the endpoint of each call of the gateway in the
    source. *)
Definition gateway_calls : list (string * string) :=
  map (fun r => (base r, path r)) registrations.

(** The arguments satisfy the shape. *)
Definition valid (r : registration) (args : arguments) : bool :=
  accepts (period r) (start_period args) &&
  accepts (period r) (end_period args) &&
  (if with_currency r then is_success (currencySchema (currency args)) else true).

(** The bytes the query serializer leaves as they are. *)
Definition unreserved (c : ascii) : bool :=
  let n := N_of_ascii c in
  ((48 <=? n) && (n <=? 57) || (65 <=? n) && (n <=? 90) ||
   (97 <=? n) && (n <=? 122) ||
   (n =? 42) || (n =? 45) || (n =? 46) || (n =? 95))%N.

(** The part of the query that carries the currency. *)
Definition currency_suffix (r : registration) (args : arguments) : string :=
  if with_currency r then
    match currency args with
    | Some c => "&currency=" ++ c
    | None => ""
    end
  else "".

(** ** What serialization makes of a value *)

(** The value [JSON.stringify] writes in place of a value: [null] for
    a number that is not finite, 0 for -0. *)
Fixpoint normalize (v : json) : json :=
  match v with
  | JNumber (Infinite _) => JNull
  | JNumber NegZero => JNumber (Finite "0")
  | JArray elements => JArray (map normalize elements)
  | JObject members => JObject (map (fun m => (fst m, normalize (snd m))) members)
  | _ => v
  end.

(** The values of the model that stand for a JavaScript value: as
    [plain], but -0 and the infinities are allowed. *)
Fixpoint representable (v : json) : bool :=
  match v with
  | JNumber (Finite literal) => plain_number (Finite literal)
  | JArray elements => forallb representable elements
  | JObject members =>
      distinct (map fst members) &&
      forallb (fun m => representable (snd m)) members
  | _ => true
  end.

(** ** Reading a query back

    The application/x-www-form-urlencoded parser, which the receiver
    of a request applies to its query. *)

Definition hex_pair (a b : ascii) : option ascii :=
  match hex_value a, hex_value b with
  | Some x, Some y => Some (ascii_of_N (16 * x + y))
  | _, _ => None
  end.

(** [+] is a space and [%XY] a byte; a [%] that two hexadecimal digits
    do not follow stays. *)
Fixpoint urldecode (s : string) : string :=
  match s with
  | EmptyString => ""
  | String c s' =>
      if Ascii.eqb c "+" then String " " (urldecode s')
      else if Ascii.eqb c "%" then
        match s' with
        | String a (String b s'') =>
            match hex_pair a b with
            | Some x => String x (urldecode s'')
            | None => String c (urldecode s')
            end
        | _ => String c (urldecode s')
        end
      else String c (urldecode s')
  end.

(** The pieces of [s] between the occurrences of [sep]. *)
Fixpoint fields (sep : ascii) (s : string) : list string :=
  match s with
  | EmptyString => [""]
  | String c s' =>
      if Ascii.eqb c sep then "" :: fields sep s'
      else
        match fields sep s' with
        | f :: fs => String c f :: fs
        | [] => [String c ""]
        end
  end.

(** A piece is a name, and a value after the first [=] if there is one. *)
Fixpoint cut (s : string) : string * string :=
  match s with
  | EmptyString => ("", "")
  | String c s' =>
      if Ascii.eqb c "=" then ("", s')
      else let (name, value) := cut s' in (String c name, value)
  end.

Definition parse_query (q : string) : list (string * string) :=
  map (fun f => let (name, value) := cut f in (urldecode name, urldecode value))
      (filter nonempty (fields "&" q)).

(** The query of a URL, as [url.toString()] writes it after the [?]. *)
Definition query (u : URL) : string :=
  String.concat "&"
    (map (fun p => urlencode (fst p) ++ "=" ++ urlencode (snd p)) (searchParams u)).

(** The character [c] is not [x]. *)
Definition avoids (x c : ascii) : bool := negb (Ascii.eqb c x).

(* ================================================================= *)
(** * Part II: properties *)
(* ================================================================= *)

(** ** Validators *)

Lemma search_bol_later (r : regex) (s : string) (pos : nat) :
  search (Cat Bol r) (S pos) s = false.
Proof.
  revert pos; induction s as [|c s IH]; intro pos; simpl.
  - reflexivity.
  - apply IH.
Qed.

Lemma test_anchored (r : regex) (s : string) :
  test (Cat Bol r) s = matches r 0 s (fun _ _ => true).
Proof.
  unfold test. destruct s as [|c s]; simpl.
  - apply orb_false_r.
  - rewrite search_bol_later. apply orb_false_r.
Qed.

Lemma append_nil_r (s : string) : s ++ "" = s.
Proof. induction s as [|c s IH]; simpl; [reflexivity | now rewrite IH]. Qed.

Lemma append_assoc (s t u : string) : (s ++ t) ++ u = s ++ t ++ u.
Proof. induction s as [|c s IH]; simpl; [reflexivity | now rewrite IH]. Qed.

Lemma length_append (s t : string) :
  String.length (s ++ t) = String.length s + String.length t.
Proof. induction s as [|c s IH]; simpl; [reflexivity | now rewrite IH]. Qed.

Lemma accepts_test (schema : ZodString) (s : string) :
  accepts schema s = test (pattern schema) s.
Proof. unfold accepts, safeParse. destruct (test _ _); reflexivity. Qed.

(** What each construct of the pattern language consumes. *)

Lemma matches_cat r1 r2 pos s k :
  matches (Cat r1 r2) pos s k =
  matches r1 pos s (fun pos' s' => matches r2 pos' s' k).
Proof. reflexivity. Qed.

Lemma matches_eol pos s k :
  matches Eol pos s k = true <-> s = "" /\ k pos "" = true.
Proof.
  destruct s as [|c s]; simpl; split.
  - intro H; now split.
  - now intros [_ H].
  - discriminate.
  - intros [H _]; discriminate.
Qed.

Lemma matches_lit c pos s k :
  matches (Lit c) pos s k = true <->
  exists rest, s = String c rest /\ k (S pos) rest = true.
Proof.
  destruct s as [|a s]; simpl; split.
  - discriminate.
  - intros (rest & H & _); discriminate.
  - destruct (Ascii.eqb_spec c a) as [->|Hne]; [|discriminate].
    intro H; now exists s.
  - intros (rest & H & Hk). injection H as -> ->.
    now rewrite Ascii.eqb_refl.
Qed.

Lemma matches_range lo hi pos s k :
  matches (Range lo hi) pos s k = true <->
  exists c rest, s = String c rest /\ in_range lo hi c = true /\
                 k (S pos) rest = true.
Proof.
  destruct s as [|a s]; simpl; split.
  - discriminate.
  - intros (c & rest & H & _); discriminate.
  - destruct (in_range lo hi a) eqn:E; [|discriminate].
    intro H; now exists a, s.
  - intros (c & rest & H & Hc & Hk). injection H as -> ->.
    now rewrite Hc.
Qed.

Lemma matches_repeat_digit n pos s k :
  matches (Repeat n Digit) pos s k = true <->
  exists d rest, s = d ++ rest /\ digits n d /\ k (n + pos) rest = true.
Proof.
  revert pos s; induction n as [|n IH]; intros pos s.
  - simpl; split.
    + intro H; exists "", s; repeat split; assumption.
    + intros (d & rest & -> & [Hl _] & Hk).
      destruct d; [assumption | discriminate].
  - change (matches (Repeat (S n) Digit) pos s k)
      with (one_char is_digit pos s
              (fun pos' s' => matches (Repeat n Digit) pos' s' k)).
    destruct s as [|a s]; simpl; split.
    + discriminate.
    + intros (d & rest & H & [Hl _] & _).
      destruct d; discriminate.
    + destruct (is_digit a) eqn:E; [|discriminate].
      intro H; apply IH in H as (d & rest & -> & [Hl Hd] & Hk).
      exists (String a d), rest; repeat split.
      * simpl; now rewrite Hl.
      * simpl; now rewrite E.
      * now rewrite Nat.add_succ_r in Hk.
    + intros (d & rest & H & [Hl Hd] & Hk).
      destruct d as [|c d]; [discriminate|].
      simpl in H, Hl, Hd. injection H as -> ->.
      apply andb_true_iff in Hd as [-> Hd].
      apply IH. exists d, rest; repeat split.
      * now injection Hl.
      * assumption.
      * now rewrite Nat.add_succ_r.
Qed.

Lemma in_range_1_4 (c : ascii) :
  in_range "1" "4" c = true <-> In c ["1"; "2"; "3"; "4"]%char.
Proof.
  destruct c as [[] [] [] [] [] [] [] []]; vm_compute; split;
    intro H; try discriminate; try reflexivity; auto 6;
    repeat (destruct H as [H|H]; [discriminate H|]); destruct H.
Qed.

Ltac unfold_schema :=
  rewrite accepts_test;
  cbv [pattern sequence dailyPeriodSchema monthlyPeriodSchema
       quarterlyPeriodSchema annualPeriodSchema];
  rewrite test_anchored.

(** Takes the hypothesis [H : matches r pos s k = true] apart, one
    construct of the pattern at a time. *)
Ltac consume H :=
  repeat (rewrite matches_cat in H;
          first
            [ apply matches_repeat_digit in H as (? & ? & -> & ? & H)
            | apply matches_lit in H as (? & -> & H)
            | apply matches_range in H as (? & ? & -> & ? & H) ]);
  apply matches_eol in H as [-> _].

Lemma daily_schema_grammar (s : string) :
  accepts dailyPeriodSchema s = true <-> daily_grammar s.
Proof.
  unfold_schema; split.
  - intro H. consume H. rewrite append_nil_r.
    eexists _, _, _; split; [reflexivity|].
    repeat (split; [assumption|]); assumption.
  - intros (y & m & d & -> & Hy & Hm & Hd).
    rewrite matches_cat; apply matches_repeat_digit.
    exists y, ("-" ++ m ++ "-" ++ d); repeat split; try apply Hy.
    rewrite matches_cat; apply matches_lit; eexists; split; [reflexivity|].
    rewrite matches_cat; apply matches_repeat_digit.
    exists m, ("-" ++ d); repeat split; try apply Hm.
    rewrite matches_cat; apply matches_lit; eexists; split; [reflexivity|].
    rewrite matches_cat; apply matches_repeat_digit.
    exists d, ""; repeat split; try apply Hd.
    now rewrite append_nil_r.
Qed.

Lemma monthly_schema_grammar (s : string) :
  accepts monthlyPeriodSchema s = true <-> monthly_grammar s.
Proof.
  unfold_schema; split.
  - intro H. consume H. rewrite append_nil_r.
    eexists _, _; split; [reflexivity|].
    repeat (split; [assumption|]); assumption.
  - intros (y & m & -> & Hy & Hm).
    rewrite matches_cat; apply matches_repeat_digit.
    exists y, ("-" ++ m); repeat split; try apply Hy.
    rewrite matches_cat; apply matches_lit; eexists; split; [reflexivity|].
    rewrite matches_cat; apply matches_repeat_digit.
    exists m, ""; repeat split; try apply Hm.
    now rewrite append_nil_r.
Qed.

Lemma quarterly_schema_grammar (s : string) :
  accepts quarterlyPeriodSchema s = true <-> quarterly_grammar s.
Proof.
  unfold_schema; split.
  - intro H. consume H.
    eexists _, _; split; [reflexivity|].
    split; [assumption | now apply in_range_1_4].
  - intros (y & q & -> & Hy & Hq).
    rewrite matches_cat; apply matches_repeat_digit.
    exists y, ("-Q" ++ String q ""); repeat split; try apply Hy.
    rewrite matches_cat; apply matches_lit; eexists; split; [reflexivity|].
    rewrite matches_cat; apply matches_lit; eexists; split; [reflexivity|].
    rewrite matches_cat; apply matches_range.
    exists q, ""; repeat split. now apply in_range_1_4.
Qed.

Lemma annual_schema_grammar (s : string) :
  accepts annualPeriodSchema s = true <-> annual_grammar s.
Proof.
  unfold_schema; split.
  - intro H. consume H. now rewrite append_nil_r.
  - intro H.
    rewrite matches_cat; apply matches_repeat_digit.
    exists s, ""; repeat split; try apply H.
    now rewrite append_nil_r.
Qed.

(** C6.  Each period schema accepts exactly the strings of its grammar:
    four digits, a dash, two digits, a dash and two digits for the
    daily one, and likewise for the monthly, quarterly and annual
    ones.  Nothing else is looked at: "2024-13-99" passes, and an
    accepted input is handed on as it is, so that a string with a
    leading or trailing blank, a final line feed or a lower-case [q]
    is rejected. *)
Theorem period_schemas_are_syntactic :
  (forall s, accepts dailyPeriodSchema s = true <-> daily_grammar s) /\
  (forall s, accepts monthlyPeriodSchema s = true <-> monthly_grammar s) /\
  (forall s, accepts quarterlyPeriodSchema s = true <-> quarterly_grammar s) /\
  (forall s, accepts annualPeriodSchema s = true <-> annual_grammar s) /\
  accepts dailyPeriodSchema "2024-13-99" = true /\
  (forall schema s,
     safeParse schema s =
     if accepts schema s then Success s else Failure (Some (message schema))) /\
  accepts dailyPeriodSchema " 2024-01-01" = false /\
  accepts dailyPeriodSchema "2024-01-01 " = false /\
  accepts dailyPeriodSchema (String.append "2024-01-01" (String "010" "")) = false /\
  accepts quarterlyPeriodSchema "2024-Q1" = true /\
  accepts quarterlyPeriodSchema "2024-q1" = false /\
  accepts quarterlyPeriodSchema "2024-Q5" = false.
Proof.
  split; [exact daily_schema_grammar|].
  split; [exact monthly_schema_grammar|].
  split; [exact quarterly_schema_grammar|].
  split; [exact annual_schema_grammar|].
  split; [reflexivity|].
  split.
  - intros schema s. unfold accepts, safeParse.
    destruct (test (pattern schema) s); reflexivity.
  - repeat split; reflexivity.
Qed.

(** ** Currency codes *)

Lemma existsb_eqb_In (s : string) (l : list string) :
  existsb (String.eqb s) l = true <-> In s l.
Proof.
  rewrite existsb_exists; split.
  - intros (x & Hx & E). apply String.eqb_eq in E. now subst.
  - intro H. exists s. split; [assumption | apply String.eqb_refl].
Qed.

Lemma distinct_NoDup (l : list string) : JSON.distinct l = true -> NoDup l.
Proof.
  induction l as [|k l IH]; simpl; intro H.
  - constructor.
  - apply andb_true_iff in H as [Hk Hl]. constructor.
    + intro Hin. apply existsb_eqb_In in Hin. now rewrite Hin in Hk.
    + now apply IH.
Qed.

(** C7.  The currency schema accepts a string exactly when it is one
    of the twenty codes of [SUPPORTED_CURRENCIES], compared as they
    are written (so "usd" is rejected), and it accepts an absent
    value. *)
Theorem currency_schema_exact :
  List.length SUPPORTED_CURRENCIES = 20 /\
  NoDup SUPPORTED_CURRENCIES /\
  (forall s, is_success (currencySchema (Some s)) = true <->
             In s SUPPORTED_CURRENCIES) /\
  currencySchema None = Success None /\
  is_success (currencySchema (Some "USD")) = true /\
  is_success (currencySchema (Some "usd")) = false /\
  is_success (currencySchema (Some "")) = false.
Proof.
  split; [reflexivity|].
  split; [apply distinct_NoDup; reflexivity|].
  split.
  - intro s. rewrite <- existsb_eqb_In. unfold currencySchema.
    destruct (existsb _ _); simpl; split; congruence.
  - repeat split; reflexivity.
Qed.

(** ** The gateway *)

Lemma request_url_from (u : URL) (params : list (string * option string)) :
  fold_left add_param params u =
  {| location := location u;
     searchParams := (searchParams u ++ present params)%list |}.
Proof.
  revert u; induction params as [|[name value] params IH]; intro u.
  - simpl. rewrite app_nil_r. now destruct u.
  - cbn [fold_left]. rewrite IH. unfold add_param, present.
    cbn [flat_map fst snd].
    destruct value as [[|c v]|];
      cbn [truthy searchParams_append location searchParams app];
      try reflexivity.
    now rewrite <- app_assoc.
Qed.

Lemma request_url_spec baseUrl endpoint params :
  request_url baseUrl endpoint params =
  {| location := baseUrl ++ endpoint; searchParams := present params |}.
Proof.
  unfold request_url. now rewrite request_url_from.
Qed.

Lemma makeApiRequest_no_credential env net baseUrl endpoint params :
  truthy (getenv env "BOT_API_KEY") = None ->
  makeApiRequest env net baseUrl endpoint params =
  ([], Settles 0 (Rejected (Error CREDENTIAL_MESSAGE))).
Proof. intro H. unfold makeApiRequest. now rewrite H. Qed.

Lemma makeApiRequest_requests env net baseUrl endpoint params key :
  truthy (getenv env "BOT_API_KEY") = Some key ->
  requests (fst (makeApiRequest env net baseUrl endpoint params)) =
  [credential_request key (request_url baseUrl endpoint params)].
Proof.
  intro H. unfold makeApiRequest. rewrite H.
  destruct (await_fetch _) as [[fired t] fetched].
  destruct fired; reflexivity.
Qed.

(** Every registered handler is the shared body around one gateway
    call, and is found under its name. *)
Lemma tools_form (name : string) (h : handler) :
  In (name, h) tools ->
  lookup name tools = Some h /\
  exists baseUrl endpoint params,
    forall env net args,
      h env net args =
      respond (makeApiRequest env net baseUrl endpoint (params args)).
Proof.
  intro H. simpl in H.
  repeat (destruct H as [H|H];
          [ injection H as <- <-; split; [reflexivity|];
            first [ now exists REFERENCE_RATE_BASE_URL; eexists _, period_params
                  | now exists EXCHANGE_RATE_BASE_URL; eexists _, currency_params ]
          | ]).
  destruct H.
Qed.

Lemma truthy_set (key : string) : key <> "" -> truthy (Some key) = Some key.
Proof. destruct key; [congruence | reflexivity]. Qed.

(** C1.  While [BOT_API_KEY] is not set, a call of any registered tool
    performs no effect at all, so issues no request, and returns at
    once the error envelope whose text is "Error: " followed by the
    message that begins "BOT_API_KEY environment variable is not set".
    The variable is looked up by each call: once it is given a
    non-empty value, the next call of the tool sends one request,
    authorized with that value. *)
Theorem missing_credential_is_reported_per_call
    (env : process_env) (net : upstream) (name : string) (h : handler)
    (args args' : arguments) (key : string) :
  In (name, h) tools ->
  getenv env "BOT_API_KEY" = None ->
  key <> "" ->
  h env net args = ([], Settles 0 (Fulfilled (error_envelope CREDENTIAL_MESSAGE))) /\
  isError (error_envelope CREDENTIAL_MESSAGE) = Some true /\
  includes (String.concat "" (map text (content (error_envelope CREDENTIAL_MESSAGE))))
           "BOT_API_KEY environment variable is not set" = true /\
  requests (fst (h env net args)) = [] /\
  serve env net [CallTool name args; SetEnv "BOT_API_KEY" key; CallTool name args'] =
    [Some ([], Settles 0 (Fulfilled (error_envelope CREDENTIAL_MESSAGE)));
     Some (h (setenv "BOT_API_KEY" key env) net args')] /\
  map headers (requests (fst (h (setenv "BOT_API_KEY" key env) net args'))) =
    [[("Authorization", key); ("Accept", "application/json")]].
Proof.
  intros Hin Henv Hkey.
  destruct (tools_form name h Hin) as (Hlook & baseUrl & endpoint & params & Hh).
  assert (E : h env net args =
              ([], Settles 0 (Fulfilled (error_envelope CREDENTIAL_MESSAGE)))).
  { rewrite Hh, makeApiRequest_no_credential by now rewrite Henv. reflexivity. }
  split; [exact E|].
  split; [reflexivity|].
  split; [reflexivity|].
  split; [now rewrite E|].
  split.
  - cbn [serve]. now rewrite Hlook, E.
  - rewrite Hh. unfold respond. cbn [fst].
    rewrite (makeApiRequest_requests _ _ _ _ _ key); [reflexivity|].
    unfold getenv, setenv. cbn [lookup]. rewrite String.eqb_refl.
    now apply truthy_set.
Qed.

Lemma missing_credential_is_reported_per_call_witness :
  In ("get_daily_exchange_rate", get_daily_exchange_rate) tools /\
  getenv [] "BOT_API_KEY" = None /\
  "secret" <> "" /\
  get_daily_exchange_rate [] (fun _ => Silent)
    {| start_period := "2024-01-01"; end_period := "2024-01-31"; currency := None |} =
  ([], Settles 0 (Fulfilled (error_envelope CREDENTIAL_MESSAGE))).
Proof.
  assert (Hin : In ("get_daily_exchange_rate", get_daily_exchange_rate) tools)
    by (simpl; auto 10).
  assert (Hkey : "secret" <> "") by discriminate.
  split; [exact Hin|]. split; [reflexivity|]. split; [exact Hkey|].
  exact (proj1 (missing_credential_is_reported_per_call
                  [] (fun _ => Silent) _ _
                  {| start_period := "2024-01-01"; end_period := "2024-01-31";
                     currency := None |}
                  {| start_period := "2024-01-01"; end_period := "2024-01-31";
                     currency := None |}
                  "secret" Hin eq_refl Hkey)).
Defined.

Lemma makeApiRequest_status_failure env net baseUrl endpoint params key t response :
  truthy (getenv env "BOT_API_KEY") = Some key ->
  (forall request, net request = Responds t response) ->
  (t < REQUEST_TIMEOUT_MS)%N ->
  ok response = false ->
  makeApiRequest env net baseUrl endpoint params =
  ([(0%N, SetTimeout REQUEST_TIMEOUT_MS);
    (0%N, Fetch (credential_request key (request_url baseUrl endpoint params)));
    (t, ClearTimeout)],
   Settles t (Rejected (Error ("API request failed with status " ++
                               N_toString (status response))))).
Proof.
  intros Hkey Hnet Ht Hok. unfold makeApiRequest. rewrite Hkey, Hnet.
  unfold await_fetch. apply N.ltb_lt in Ht. rewrite Ht, Hok. reflexivity.
Qed.

(** C3.  When the upstream answers before the deadline with a status
    outside 200-299, the call ends with the error envelope whose
    message is "API request failed with status " followed by the
    status in decimal: the digits read back as the status, as for
    400, 401, 403, 404, 429, 500, 502 and 503.  Nothing of the
    response but its status reaches the result: the same response
    with any other body gives the same run.  For status 404 the
    message contains "404". *)
Theorem status_failure_reports_status_only
    (env : process_env) (net : upstream) (name : string) (h : handler)
    (args : arguments) (key : string) (t : N) (response : Response) :
  In (name, h) tools ->
  truthy (getenv env "BOT_API_KEY") = Some key ->
  (forall request, net request = Responds t response) ->
  (t < REQUEST_TIMEOUT_MS)%N ->
  ok response = false ->
  snd (h env net args) =
    Settles t (Fulfilled (error_envelope
      ("API request failed with status " ++ N_toString (status response)))) /\
  option_map N.of_uint (NilEmpty.uint_of_string (N_toString (status response))) =
    Some (status response) /\
  map N_toString [400; 401; 403; 404; 429; 500; 502; 503]%N =
    ["400"; "401"; "403"; "404"; "429"; "500"; "502"; "503"] /\
  (forall body : promise JSON.json,
     h env (fun _ => Responds t {| status := status response; json_body := body |}) args =
     h env net args) /\
  error_envelope ("API request failed with status " ++ N_toString 404) =
    {| content := [{| type := "text";
                      text := "Error: API request failed with status 404" |}];
       isError := Some true |} /\
  includes "Error: API request failed with status 404" "404" = true.
Proof.
  intros Hin Hkey Hnet Ht Hok.
  destruct (tools_form name h Hin) as (_ & baseUrl & endpoint & params & Hh).
  split; [|split; [|split; [reflexivity|split; [|split; reflexivity]]]].
  - rewrite Hh, (makeApiRequest_status_failure _ _ _ _ _ key t response) by assumption.
    reflexivity.
  - unfold N_toString. rewrite NilEmpty.usu. cbn [option_map].
    now rewrite DecimalN.Unsigned.of_to.
  - intro body. rewrite !Hh.
    rewrite (makeApiRequest_status_failure _ net _ _ _ key t response) by assumption.
    rewrite (makeApiRequest_status_failure _ _ _ _ _ key t
               {| status := status response; json_body := body |});
      [reflexivity | assumption | reflexivity | assumption | exact Hok].
Qed.

Lemma status_failure_reports_status_only_witness :
  truthy (getenv [("BOT_API_KEY", "key")] "BOT_API_KEY") = Some "key" /\
  (100 < REQUEST_TIMEOUT_MS)%N /\
  ok {| status := 503; json_body := Settles 5 (Fulfilled (JString "maintenance")) |} = false /\
  snd (get_annual_exchange_rate [("BOT_API_KEY", "key")]
         (fun _ => Responds 100
                     {| status := 503;
                        json_body := Settles 5 (Fulfilled (JString "maintenance")) |})
         {| start_period := "2020"; end_period := "2024"; currency := Some "USD" |}) =
  Settles 100 (Fulfilled
    {| content := [{| type := "text";
                      text := "Error: API request failed with status 503" |}];
       isError := Some true |}).
Proof.
  assert (Hin : In ("get_annual_exchange_rate", get_annual_exchange_rate) tools)
    by (simpl; auto 10).
  assert (Ht : (100 < REQUEST_TIMEOUT_MS)%N) by reflexivity.
  split; [reflexivity|]. split; [exact Ht|]. split; [reflexivity|].
  exact (proj1 (status_failure_reports_status_only
                  [("BOT_API_KEY", "key")]
                  (fun _ => Responds 100
                     {| status := 503;
                        json_body := Settles 5 (Fulfilled (JString "maintenance")) |})
                  "get_annual_exchange_rate" get_annual_exchange_rate
                  {| start_period := "2020"; end_period := "2024";
                     currency := Some "USD" |}
                  "key" 100
                  {| status := 503;
                     json_body := Settles 5 (Fulfilled (JString "maintenance")) |}
                  Hin eq_refl (fun _ => eq_refl) Ht eq_refl)).
Defined.

(** C4.  With the credential set, [get_daily_interbank_rate] called
    with the periods 2024-01-01 and 2024-01-31 sends exactly one
    request: a GET of the reference-rate base followed by
    "/DAILY_REF_RATE/", whose query consists of [start_period] and
    [end_period] with those values and of nothing else. *)
Theorem daily_interbank_issues_one_request
    (env : process_env) (net : upstream) (key : string) (cur : option string) :
  truthy (getenv env "BOT_API_KEY") = Some key ->
  let args := {| start_period := "2024-01-01"; end_period := "2024-01-31";
                 currency := cur |} in
  requests (fst (get_daily_interbank_rate env net args)) =
    [{| method := "GET";
        url := REFERENCE_RATE_BASE_URL ++ "/DAILY_REF_RATE/" ++
               "?start_period=2024-01-01&end_period=2024-01-31";
        headers := [("Authorization", key); ("Accept", "application/json")] |}] /\
  request_url REFERENCE_RATE_BASE_URL "/DAILY_REF_RATE/" (period_params args) =
    {| location := REFERENCE_RATE_BASE_URL ++ "/DAILY_REF_RATE/";
       searchParams := [("start_period", "2024-01-01"); ("end_period", "2024-01-31")] |}.
Proof.
  intros Hkey args. split; [|reflexivity].
  unfold get_daily_interbank_rate, interbank, respond. cbn [fst].
  now rewrite (makeApiRequest_requests _ _ _ _ _ key).
Qed.

Lemma daily_interbank_issues_one_request_witness :
  truthy (getenv [("BOT_API_KEY", "key")] "BOT_API_KEY") = Some "key" /\
  List.length
    (requests (fst (get_daily_interbank_rate [("BOT_API_KEY", "key")] (fun _ => Silent)
                      {| start_period := "2024-01-01"; end_period := "2024-01-31";
                         currency := None |}))) = 1.
Proof.
  split; [reflexivity|].
  rewrite (proj1 (daily_interbank_issues_one_request
                    [("BOT_API_KEY", "key")] (fun _ => Silent) "key" None eq_refl)).
  reflexivity.
Defined.

Lemma present_cons entry params :
  present (entry :: params) = (present [entry] ++ present params)%list.
Proof. unfold present. cbn [flat_map]. now rewrite app_nil_r. Qed.

Lemma present_value (name value : string) :
  value <> "" -> present [(name, Some value)] = [(name, value)].
Proof. destruct value; [congruence | reflexivity]. Qed.

(** C5.  For each base and endpoint the source calls the gateway
    with, and every parameter mapping, the query of the URL the
    gateway builds holds the entries of the mapping whose value is a
    non-empty string, in their order, and no other: an entry whose
    value is absent or empty is left out.  So
    [get_daily_exchange_rate] without a currency sends
    [start_period] and [end_period] only, and with the currency USD
    it sends [currency=USD] after them. *)
Theorem empty_parameters_are_left_out
    (env : process_env) (net : upstream) (key sp ep : string) :
  truthy (getenv env "BOT_API_KEY") = Some key ->
  sp <> "" -> ep <> "" ->
  (forall baseUrl endpoint params,
     In (baseUrl, endpoint) gateway_calls ->
     request_url baseUrl endpoint params =
     {| location := baseUrl ++ endpoint; searchParams := present params |}) /\
  (forall baseUrl endpoint params,
     In (baseUrl, endpoint) gateway_calls ->
     requests (fst (makeApiRequest env net baseUrl endpoint params)) =
     [credential_request key
        {| location := baseUrl ++ endpoint; searchParams := present params |}]) /\
  List.length gateway_calls = 8 /\
  present [("a", Some ""); ("b", None); ("c", Some "x")] = [("c", "x")] /\
  requests (fst (get_daily_exchange_rate env net
                   {| start_period := sp; end_period := ep; currency := None |})) =
    [credential_request key
       {| location := EXCHANGE_RATE_BASE_URL ++ "/DAILY_AVG_EXG_RATE/";
          searchParams := [("start_period", sp); ("end_period", ep)] |}] /\
  requests (fst (get_daily_exchange_rate env net
                   {| start_period := sp; end_period := ep; currency := Some "USD" |})) =
    [credential_request key
       {| location := EXCHANGE_RATE_BASE_URL ++ "/DAILY_AVG_EXG_RATE/";
          searchParams := [("start_period", sp); ("end_period", ep);
                           ("currency", "USD")] |}] /\
  URL_toString (request_url EXCHANGE_RATE_BASE_URL "/DAILY_AVG_EXG_RATE/"
                  (currency_params {| start_period := "2024-01-01";
                                      end_period := "2024-01-31";
                                      currency := None |})) =
    "https://gateway.api.bot.or.th/Stat-ExchangeRate/v2/DAILY_AVG_EXG_RATE/?start_period=2024-01-01&end_period=2024-01-31" /\
  URL_toString (request_url EXCHANGE_RATE_BASE_URL "/DAILY_AVG_EXG_RATE/"
                  (currency_params {| start_period := "2024-01-01";
                                      end_period := "2024-01-31";
                                      currency := Some "USD" |})) =
    "https://gateway.api.bot.or.th/Stat-ExchangeRate/v2/DAILY_AVG_EXG_RATE/?start_period=2024-01-01&end_period=2024-01-31&currency=USD".
Proof.
  intros Hkey Hsp Hep.
  assert (Hreq : forall baseUrl endpoint params,
             requests (fst (makeApiRequest env net baseUrl endpoint params)) =
             [credential_request key
                {| location := baseUrl ++ endpoint; searchParams := present params |}]).
  { intros. rewrite (makeApiRequest_requests _ _ _ _ _ key) by assumption.
    now rewrite request_url_spec. }
  split; [intros baseUrl endpoint params _; apply request_url_spec|].
  split; [intros baseUrl endpoint params _; apply Hreq|].
  split; [reflexivity|].
  split; [reflexivity|].
  assert (Hp : forall tail,
             present (("start_period", Some sp) :: ("end_period", Some ep) :: tail) =
             ("start_period", sp) :: ("end_period", ep) :: present tail).
  { intro tail. rewrite present_cons, (present_cons (_, Some ep)).
    now rewrite !present_value by assumption. }
  split; [|split; [|split; reflexivity]].
  - unfold get_daily_exchange_rate, exchange, respond. cbn [fst].
    rewrite Hreq. unfold currency_params. cbn [start_period end_period currency].
    now rewrite Hp.
  - unfold get_daily_exchange_rate, exchange, respond. cbn [fst].
    rewrite Hreq. unfold currency_params. cbn [start_period end_period currency].
    now rewrite Hp.
Qed.

Lemma empty_parameters_are_left_out_witness :
  truthy (getenv [("BOT_API_KEY", "key")] "BOT_API_KEY") = Some "key" /\
  "2024-01-01" <> "" /\ "2024-01-31" <> "" /\
  present [("a", Some ""); ("b", None); ("c", Some "x")] = [("c", "x")].
Proof.
  assert (H1 : "2024-01-01" <> "") by discriminate.
  assert (H2 : "2024-01-31" <> "") by discriminate.
  split; [reflexivity|]. split; [exact H1|]. split; [exact H2|].
  exact (proj1 (proj2 (proj2 (proj2 (empty_parameters_are_left_out
                  [("BOT_API_KEY", "key")] (fun _ => Silent) "key"
                  "2024-01-01" "2024-01-31" eq_refl H1 H2))))).
Defined.

(** C10.  Every registered handler wraps one gateway call: it performs
    the effects of that call, and when the call settles it returns an
    envelope with exactly one content item, of type "text".  If the
    call failed the text is "Error: " followed by the message of the
    error thrown (or by the thrown value as a string when it is not an
    error), and [isError] is true; if it succeeded the text is the
    formatted data and [isError] is not set.  No handler ever
    rejects. *)
Theorem envelope_has_one_text_item
    (name : string) (h : handler) (env : process_env) (net : upstream)
    (args : arguments) :
  In (name, h) tools ->
  exists baseUrl endpoint params,
    let request := makeApiRequest env net baseUrl endpoint params in
    fst (h env net args) = fst request /\
    snd (h env net args) =
      match snd request with
      | Settles t (Fulfilled data) =>
          Settles t (Fulfilled
            {| content := [{| type := "text"; text := formatResponse data |}];
               isError := None |})
      | Settles t (Rejected (ErrorObject _ message)) =>
          Settles t (Fulfilled
            {| content := [{| type := "text"; text := "Error: " ++ message |}];
               isError := Some true |})
      | Settles t (Rejected (NonError as_string)) =>
          Settles t (Fulfilled
            {| content := [{| type := "text"; text := "Error: " ++ as_string |}];
               isError := Some true |})
      | Pending => Pending
      end /\
    match snd (h env net args) with
    | Settles _ (Fulfilled e) =>
        List.length (content e) = 1 /\ map type (content e) = ["text"]
    | Settles _ (Rejected _) => False
    | Pending => True
    end.
Proof.
  intro Hin.
  destruct (tools_form name h Hin) as (_ & baseUrl & endpoint & params & Hh).
  exists baseUrl, endpoint, (params args). cbv zeta.
  rewrite Hh. unfold respond. cbn [fst snd].
  split; [reflexivity|].
  destruct (snd (makeApiRequest env net baseUrl endpoint (params args)))
    as [t [data|[error_name message|as_string]]|]; simpl; auto.
Qed.

Lemma envelope_has_one_text_item_witness :
  In ("get_monthly_interbank_rate", get_monthly_interbank_rate) tools /\
  snd (get_monthly_interbank_rate [("BOT_API_KEY", "key")]
         (fun _ => Fails 40 (ErrorObject "TypeError" "fetch failed"))
         {| start_period := "2024-01"; end_period := "2024-12"; currency := None |}) =
  Settles 40 (Fulfilled
    {| content := [{| type := "text"; text := "Error: fetch failed" |}];
       isError := Some true |}).
Proof.
  assert (Hin : In ("get_monthly_interbank_rate", get_monthly_interbank_rate) tools)
    by (simpl; auto 10).
  split; [exact Hin|].
  destruct (envelope_has_one_text_item
              "get_monthly_interbank_rate" get_monthly_interbank_rate
              [("BOT_API_KEY", "key")]
              (fun _ => Fails 40 (ErrorObject "TypeError" "fetch failed"))
              {| start_period := "2024-01"; end_period := "2024-12"; currency := None |}
              Hin) as (baseUrl & endpoint & params & _ & H & _).
  exact H.
Defined.

(** ** The deadline *)

(** If the network has not answered when the timer fires, the request
    is aborted then and the call ends then with the timeout message. *)
Lemma deadline_expiry env net name h args key :
  In (name, h) tools ->
  truthy (getenv env "BOT_API_KEY") = Some key ->
  (forall request, unanswered_at_deadline (net request) = true) ->
  exists request,
    h env net args =
    ([(0%N, SetTimeout REQUEST_TIMEOUT_MS); (0%N, Fetch request);
      (REQUEST_TIMEOUT_MS, Abort); (REQUEST_TIMEOUT_MS, ClearTimeout)],
     Settles REQUEST_TIMEOUT_MS (Fulfilled (error_envelope "API request timed out"))).
Proof.
  intros Hin Hkey Hnet.
  destruct (tools_form name h Hin) as (_ & baseUrl & endpoint & params & Hh).
  eexists. rewrite Hh. unfold makeApiRequest. rewrite Hkey.
  match goal with |- context [await_fetch (net ?r)] =>
    specialize (Hnet r); destruct (net r) as [t r'|t e|] end;
    unfold await_fetch; simpl in Hnet;
    try (apply negb_true_iff in Hnet; rewrite Hnet); reflexivity.
Qed.

(** Whatever happens, a call leaves no timer armed. *)
Lemma timer_released env net baseUrl endpoint params :
  armed (fst (makeApiRequest env net baseUrl endpoint params)) 0 = 0.
Proof.
  unfold makeApiRequest. destruct (truthy _) as [key|]; [|reflexivity].
  destruct (await_fetch _) as [[fired t] fetched].
  destruct fired; reflexivity.
Qed.

(** The four messages a failure of the gateway itself can carry are
    pairwise different, whatever the status. *)
Lemma timeout_message_distinct (code : N) :
  "API request timed out" <> CREDENTIAL_MESSAGE /\
  "API request timed out" <> "API request failed with status " ++ N_toString code.
Proof. split; discriminate. Qed.

(** C2, evaluated where it fails.  The response head arrives after
    100 ms and the body takes a minute: the timer is cleared at
    100 ms, when [return response.json()] leaves the [try] statement,
    nothing is aborted, and the call ends after 60100 ms with a
    success envelope.  If the body never ends, neither does the call. *)
Theorem slow_body_escapes_the_deadline :
  let env := [("BOT_API_KEY", "key")] in
  let args := {| start_period := "2024-01-01"; end_period := "2024-01-31";
                 currency := None |} in
  let request :=
    credential_request "key"
      {| location := REFERENCE_RATE_BASE_URL ++ "/DAILY_REF_RATE/";
         searchParams := [("start_period", "2024-01-01");
                          ("end_period", "2024-01-31")] |} in
  get_daily_interbank_rate env
    (fun _ => Responds 100 {| status := 200;
                              json_body := Settles 60000 (Fulfilled (JArray [])) |})
    args =
  ([(0%N, SetTimeout 30000); (0%N, Fetch request); (100%N, ClearTimeout)],
   Settles 60100 (Fulfilled
     {| content := [{| type := "text"; text := "[]" |}]; isError := None |})) /\
  get_daily_interbank_rate env
    (fun _ => Responds 100 {| status := 200; json_body := Pending |})
    args =
  ([(0%N, SetTimeout 30000); (0%N, Fetch request); (100%N, ClearTimeout)],
   Pending).
Proof. split; reflexivity. Qed.

(** ** Resources *)

(** C9.  Reading [bot://currencies] gives one document, whose text
    parses to an array of twenty objects, one for each code of
    [SUPPORTED_CURRENCIES] in the declared order, each made of the
    code and of the description the table holds for it, none of them
    empty.  A code that neither the table nor [Object.prototype]
    knows is described by itself.  The document is a constant: the
    read callback depends on neither the environment nor the network,
    and cannot fail. *)
Theorem currencies_resource_lists_every_code :
  exists doc,
    read_currencies = [doc] /\
    uri doc = "bot://currencies" /\
    mimeType doc = "application/json" /\
    JSON.parse (resource_text doc) =
      Some (JArray [
         JObject [("code", JString "USD"); ("description", JString "United States Dollar")];
         JObject [("code", JString "GBP"); ("description", JString "British Pound Sterling")];
         JObject [("code", JString "EUR"); ("description", JString "Euro")];
         JObject [("code", JString "JPY"); ("description", JString "Japanese Yen")];
         JObject [("code", JString "CNY"); ("description", JString "Chinese Yuan Renminbi")];
         JObject [("code", JString "HKD"); ("description", JString "Hong Kong Dollar")];
         JObject [("code", JString "SGD"); ("description", JString "Singapore Dollar")];
         JObject [("code", JString "MYR"); ("description", JString "Malaysian Ringgit")];
         JObject [("code", JString "TWD"); ("description", JString "Taiwan Dollar")];
         JObject [("code", JString "KRW"); ("description", JString "South Korean Won")];
         JObject [("code", JString "IDR"); ("description", JString "Indonesian Rupiah")];
         JObject [("code", JString "INR"); ("description", JString "Indian Rupee")];
         JObject [("code", JString "AUD"); ("description", JString "Australian Dollar")];
         JObject [("code", JString "NZD"); ("description", JString "New Zealand Dollar")];
         JObject [("code", JString "CHF"); ("description", JString "Swiss Franc")];
         JObject [("code", JString "DKK"); ("description", JString "Danish Krone")];
         JObject [("code", JString "NOK"); ("description", JString "Norwegian Krone")];
         JObject [("code", JString "SEK"); ("description", JString "Swedish Krona")];
         JObject [("code", JString "AED"); ("description", JString "UAE Dirham")];
         JObject [("code", JString "PKR"); ("description", JString "Pakistani Rupee")] ]) /\
    List.length currencyInfo = 20 /\
    map fst currencyInfo = SUPPORTED_CURRENCIES /\
    forallb (fun entry => match snd entry with
                          | Text description => nonempty description
                          | _ => false
                          end) currencyInfo = true /\
    (forall code,
       lookup code descriptions = None -> inherited code = None ->
       getCurrencyDescription code = Text code) /\
    getCurrencyDescription "XXX" = Text "XXX" /\
    getCurrencyDescription "USD" = Text "United States Dollar".
Proof.
  eexists; split; [reflexivity|].
  repeat (split; [vm_compute; reflexivity|]).
  split; [|split; reflexivity].
  intros code Hown Hinherited. unfold getCurrencyDescription, descriptions_get.
  now rewrite Hown, Hinherited.
Qed.

(** ** JSON: what the parser reads back *)

Lemma json_induction (P : json -> Prop) :
  P JNull ->
  (forall b, P (JBool b)) ->
  (forall n, P (JNumber n)) ->
  (forall s, P (JString s)) ->
  (forall elements, Forall P elements -> P (JArray elements)) ->
  (forall members, Forall (fun m => P (snd m)) members -> P (JObject members)) ->
  forall v, P v.
Proof.
  intros Hnull Hbool Hnum Hstr Harr Hobj.
  fix IH 1. intros [ |b|n|s|elements|members].
  - exact Hnull.
  - apply Hbool.
  - apply Hnum.
  - apply Hstr.
  - apply Harr. induction elements as [|x xs IHxs]; constructor.
    + apply IH.
    + exact IHxs.
  - apply Hobj. induction members as [|m ms IHms]; constructor.
    + apply IH.
    + exact IHms.
Qed.

Lemma forall_chars_app p s t :
  forall_chars p (s ++ t) = forall_chars p s && forall_chars p t.
Proof.
  induction s as [|c s IH]; simpl; [reflexivity|].
  now rewrite IH, andb_assoc.
Qed.

Lemma strip_prefix_app p rest : strip_prefix p (p ++ rest) = Some rest.
Proof.
  induction p as [|c p IH]; simpl; [reflexivity|].
  now rewrite Ascii.eqb_refl.
Qed.

Lemma strip_prefix_inv p s r : strip_prefix p s = Some r -> s = p ++ r.
Proof.
  revert s; induction p as [|a p IH]; intros s H; simpl in *.
  - now injection H as ->.
  - destruct s as [|b s]; [discriminate|].
    destruct (Ascii.eqb_spec a b) as [->|]; [|discriminate].
    now rewrite (IH _ H).
Qed.

Lemma span_inv p s a b :
  span p s = (a, b) -> s = a ++ b /\ forall_chars p a = true.
Proof.
  revert a b; induction s as [|c s IH]; intros a b H; simpl in H.
  - injection H as <- <-. now split.
  - destruct (p c) eqn:E.
    + destruct (span p s) as [a' b'] eqn:Es. injection H as <- <-.
      destruct (IH _ _ eq_refl) as [-> Ha]. simpl. now rewrite E.
    + injection H as <- <-. now split.
Qed.

Lemma span_app p s rest :
  forall_chars p s = true ->
  match rest with EmptyString => true | String c _ => negb (p c) end = true ->
  span p (s ++ rest) = (s, rest).
Proof.
  intros Hs Hrest. induction s as [|c s IH]; simpl in *.
  - destruct rest as [|c r]; [reflexivity|].
    simpl. apply negb_true_iff in Hrest. now rewrite Hrest.
  - apply andb_true_iff in Hs as [Hc Hs]. now rewrite Hc, IH.
Qed.

Lemma skip_ws_blank w s : blank w -> skip_ws (w ++ s) = skip_ws s.
Proof.
  unfold blank. induction w as [|c w IH]; simpl; [reflexivity|].
  intro H. apply andb_true_iff in H as [Hc Hw]. now rewrite Hc, IH.
Qed.

Lemma blank_app w1 w2 : blank w1 -> blank w2 -> blank (w1 ++ w2).
Proof. unfold blank. intros H1 H2. now rewrite forall_chars_app, H1, H2. Qed.

Lemma parse_value_blank fuel w s :
  blank w -> parse_value fuel (w ++ s) = parse_value fuel s.
Proof.
  intro H. destruct fuel as [|fuel]; [reflexivity|].
  cbn [parse_value]. now rewrite skip_ws_blank.
Qed.

(** *** String literals *)

Lemma parse_chars_escape_char c tail :
  parse_chars (escape_char c ++ tail) =
  match parse_chars tail with
  | Some (str, rest) => Some (String c str, rest)
  | None => None
  end.
Proof.
  destruct c as [[] [] [] [] [] [] [] []]; reflexivity.
Qed.

Lemma parse_chars_escape s rest :
  parse_chars (escape s ++ String QUOTE rest) = Some (s, rest).
Proof.
  induction s as [|c s IH].
  - reflexivity.
  - cbn [escape]. rewrite append_assoc, parse_chars_escape_char.
    now rewrite IH.
Qed.

Lemma parse_chars_quote s rest :
  exists tail, QuoteJSONString s ++ rest = String QUOTE tail /\
               parse_chars tail = Some (s, rest).
Proof.
  exists (escape s ++ String QUOTE rest). split.
  - unfold QuoteJSONString. cbn [append]. now rewrite append_assoc.
  - apply parse_chars_escape.
Qed.

(** *** Number literals *)

Lemma is_digit_numchar c : is_digit c = true -> is_numchar c = true.
Proof. intro H. unfold is_numchar. now rewrite H. Qed.

Lemma digits_numchars s :
  forall_chars is_digit s = true -> forall_chars is_numchar s = true.
Proof.
  induction s as [|c s IH]; simpl; [reflexivity|].
  intro H. apply andb_true_iff in H as [Hc Hs].
  now rewrite (is_digit_numchar _ Hc), IH.
Qed.

Lemma read_fraction_shape s fp rest :
  read_fraction s = Some (fp, rest) ->
  exists pre, s = pre ++ rest /\ forall_chars is_numchar pre = true.
Proof.
  unfold read_fraction.
  destruct (strip_prefix "." s) as [r|] eqn:E.
  - apply strip_prefix_inv in E. subst s.
    destruct (span is_digit r) as [fp' rest'] eqn:Es.
    apply span_inv in Es as [-> Hfp].
    destruct (nonempty fp'); [|discriminate].
    intro H; injection H as -> ->.
    exists ("." ++ fp). split; [reflexivity|].
    simpl. now apply digits_numchars.
  - intro H; injection H as <- <-. now exists "".
Qed.

Lemma read_exponent_shape s ex :
  read_exponent s = Some ex -> forall_chars is_numchar s = true.
Proof.
  destruct s as [|x r]; [reflexivity|]. cbn [read_exponent].
  destruct (Ascii.eqb x "e" || Ascii.eqb x "E") eqn:Ex; [|discriminate].
  assert (Hx : is_numchar x = true).
  { apply orb_true_iff in Ex as [Ex|Ex]; apply Ascii.eqb_eq in Ex; now subst. }
  cbn [forall_chars]. rewrite Hx. cbn [andb].
  destruct (strip_prefix "-" r) as [r'|] eqn:Em;
    [|destruct (strip_prefix "+" r) as [r'|] eqn:Ep].
  - apply strip_prefix_inv in Em. subst r.
    destruct (nonempty r' && forall_chars is_digit r') eqn:E; [|discriminate].
    apply andb_true_iff in E as [_ E]. intros _. simpl.
    now apply digits_numchars.
  - apply strip_prefix_inv in Ep. subst r.
    destruct (nonempty r' && forall_chars is_digit r') eqn:E; [|discriminate].
    apply andb_true_iff in E as [_ E]. intros _. simpl.
    now apply digits_numchars.
  - destruct (nonempty r && forall_chars is_digit r) eqn:E; [|discriminate].
    apply andb_true_iff in E as [_ E]. intros _.
    now apply digits_numchars.
Qed.

Lemma int_ok_starts ip tail :
  int_ok ip = true -> forall_chars is_digit ip = true ->
  starts_number (ip ++ tail) = true.
Proof.
  destruct ip as [|c ip]; [discriminate|].
  intros _ H. simpl in H. apply andb_true_iff in H as [Hc _].
  simpl. rewrite Hc. apply orb_true_r.
Qed.

Lemma read_number_shape tok r :
  read_number tok = Some r ->
  forall_chars is_numchar tok = true /\ starts_number tok = true.
Proof.
  unfold read_number, read_sign.
  assert (body : forall neg s1,
    (let (ip, s2) := span is_digit s1 in
     match read_fraction s2 with
     | Some (fp, s3) =>
         match read_exponent s3 with
         | Some ex =>
             if int_ok ip
             then Some (neg, digits_value 0 (ip ++ fp),
                        (ex - Z.of_nat (String.length fp))%Z)
             else None
         | None => None
         end
     | None => None
     end) = Some r ->
    forall_chars is_numchar s1 = true /\ starts_number s1 = true).
  { intros neg s1.
    destruct (span is_digit s1) as [ip s2] eqn:Eip.
    apply span_inv in Eip as [-> Hip].
    destruct (read_fraction s2) as [[fp s3]|] eqn:Ef; [|discriminate].
    apply read_fraction_shape in Ef as (pre & -> & Hpre).
    destruct (read_exponent s3) as [ex|] eqn:Ee; [|discriminate].
    apply read_exponent_shape in Ee.
    destruct (int_ok ip) eqn:Eok; [|discriminate].
    intros _. split.
    - rewrite !forall_chars_app, (digits_numchars _ Hip), Hpre, Ee. reflexivity.
    - now apply int_ok_starts. }
  destruct (strip_prefix "-" tok) as [s1|] eqn:Esign.
  - apply strip_prefix_inv in Esign. subst tok.
    intro H. apply body in H as [H _]. split; [|reflexivity].
    simpl. exact H.
  - apply body.
Qed.

Lemma plain_number_literal n :
  plain_number n = true ->
  exists literal, n = Finite literal /\
    number_of_literal literal = Some (Finite literal) /\
    forall_chars is_numchar literal = true /\ starts_number literal = true.
Proof.
  destruct n as [literal| |neg]; try discriminate. simpl.
  destruct (number_of_literal literal) as [n'|] eqn:E; [|discriminate].
  intro H. destruct n' as [l'| |neg]; try discriminate.
  simpl in H. apply String.eqb_eq in H. subst l'.
  exists literal. split; [reflexivity|]. split; [exact E|].
  unfold number_of_literal in E.
  destruct (read_number literal) as [r|] eqn:Er; [|discriminate].
  now apply read_number_shape in Er.
Qed.

(** *** Values *)

Lemma parse_value_S fuel s :
  parse_value (S fuel) s =
  let s0 := skip_ws s in
  match strip_prefix "null" s0, strip_prefix "true" s0, strip_prefix "false" s0 with
  | Some rest, _, _ => Some (JNull, rest)
  | None, Some rest, _ => Some (JBool true, rest)
  | None, None, Some rest => Some (JBool false, rest)
  | None, None, None =>
      match s0 with
      | EmptyString => None
      | String c r =>
          if Ascii.eqb c QUOTE then
            match parse_chars r with
            | Some (str, rest) => Some (JString str, rest)
            | None => None
            end
          else if Ascii.eqb c "[" then
            match strip_prefix "]" (skip_ws r) with
            | Some rest => Some (JArray [], rest)
            | None => parse_elements fuel r []
            end
          else if Ascii.eqb c "{" then
            match strip_prefix "}" (skip_ws r) with
            | Some rest => Some (JObject [], rest)
            | None => parse_members fuel r []
            end
          else if Ascii.eqb c "-" || is_digit c then
            let (tok, rest) := span is_numchar s0 in
            match number_of_literal tok with
            | Some n => Some (JNumber n, rest)
            | None => None
            end
          else None
      end
  end.
Proof. reflexivity. Qed.

Lemma parse_elements_S fuel s acc :
  parse_elements (S fuel) s acc =
  match parse_value fuel s with
  | Some (v, r) =>
      match strip_prefix "," (skip_ws r), strip_prefix "]" (skip_ws r) with
      | Some rest, _ => parse_elements fuel rest (acc ++ [v])
      | None, Some rest => Some (JArray (acc ++ [v]), rest)
      | None, None => None
      end
  | None => None
  end.
Proof. reflexivity. Qed.

Lemma parse_members_S fuel s acc :
  parse_members (S fuel) s acc =
  match strip_prefix (String QUOTE "") (skip_ws s) with
  | Some r =>
      match parse_chars r with
      | Some (key, r1) =>
          match strip_prefix ":" (skip_ws r1) with
          | Some r2 =>
              match parse_value fuel r2 with
              | Some (v, r3) =>
                  match strip_prefix "," (skip_ws r3),
                        strip_prefix "}" (skip_ws r3) with
                  | Some rest, _ => parse_members fuel rest (set_member key v acc)
                  | None, Some rest => Some (JObject (set_member key v acc), rest)
                  | None, None => None
                  end
              | None => None
              end
          | None => None
          end
      | None => None
      end
  | None => None
  end.
Proof. reflexivity. Qed.

Lemma number_head c :
  Ascii.eqb c "-" || is_digit c = true ->
  is_ws c = false /\ Ascii.eqb "n" c = false /\ Ascii.eqb "t" c = false /\
  Ascii.eqb "f" c = false /\ Ascii.eqb c QUOTE = false /\
  Ascii.eqb c "[" = false /\ Ascii.eqb c "{" = false /\
  Ascii.eqb "]" c = false /\ Ascii.eqb "}" c = false.
Proof.
  destruct c as [[] [] [] [] [] [] [] []]; intro H;
    try discriminate H; repeat split; reflexivity.
Qed.

Lemma ws_not_numchar c : is_ws c = true -> is_numchar c = false.
Proof.
  destruct c as [[] [] [] [] [] [] [] []]; intro H;
    try discriminate H; reflexivity.
Qed.

Lemma ends_token_close w c r :
  blank w -> is_numchar c = false -> ends_token (w ++ String c r) = true.
Proof.
  intros Hw Hc. destruct w as [|a w]; simpl.
  - now rewrite Hc.
  - unfold blank in Hw. simpl in Hw. apply andb_true_iff in Hw as [Ha _].
    now rewrite (ws_not_numchar _ Ha).
Qed.

Lemma opens_value_skip s :
  opens_value s = true ->
  skip_ws s = s /\ strip_prefix "]" s = None /\ strip_prefix "}" s = None.
Proof.
  destruct s as [|c s]; [discriminate|]. unfold opens_value.
  intro H. apply andb_true_iff in H as [H H3].
  apply andb_true_iff in H as [H1 H2].
  apply negb_true_iff in H1, H2, H3.
  cbn [skip_ws strip_prefix]. now rewrite H1, H2, H3.
Qed.

Lemma wrap_opens open close stepback indent partial rest c :
  opens_value (String c "") = true ->
  opens_value (wrap (String c open) close stepback indent partial ++ rest) = true.
Proof. intro H. destruct partial; exact H. Qed.

Lemma serialize_opens gap indent v rest :
  plain v = true ->
  opens_value (SerializeJSONProperty gap indent v ++ rest) = true.
Proof.
  destruct v as [ |[]|n|s|elements|members]; intro Hp;
    try reflexivity.
  - apply plain_number_literal in Hp as (literal & -> & _ & _ & Hs).
    destruct literal as [|c l]; [discriminate|].
    unfold starts_number in Hs. apply number_head in Hs.
    destruct Hs as (H1 & _ & _ & _ & _ & _ & _ & H2 & H3).
    cbn [SerializeJSONProperty SerializeNumber append opens_value].
    now rewrite H1, H2, H3.
  - cbn [SerializeJSONProperty]. now apply wrap_opens.
  - cbn [SerializeJSONProperty]. now apply wrap_opens.
Qed.

Section RoundTrip.

Variable gap : string.

Lemma concat_cons sep a b l :
  String.concat sep (a :: b :: l) = a ++ sep ++ String.concat sep (b :: l).
Proof. reflexivity. Qed.

Lemma skip_ws_token c s : is_ws c = false -> skip_ws (String c s) = String c s.
Proof. intro H. cbn [skip_ws]. now rewrite H. Qed.

Lemma strip_prefix_head c s : strip_prefix (String c "") (String c s) = Some s.
Proof. cbn [strip_prefix]. now rewrite Ascii.eqb_refl. Qed.

Lemma parse_elements_serialize indent wsep w2 rest :
  blank indent -> blank wsep -> blank w2 ->
  forall l, Forall (reads_back gap) l ->
  forall x fuel acc w,
    reads_back gap x -> blank w -> elements_size (x :: l) <= fuel ->
    parse_elements fuel
      (w ++ String.concat (String "," wsep)
              (map (SerializeJSONProperty gap indent) (x :: l)) ++
       w2 ++ String "]" rest) acc =
    Some (JArray (acc ++ x :: l), rest).
Proof.
  intros Hindent Hwsep Hw2.
  induction l as [|y l IH]; intros Hl x fuel acc w Hx Hw Hfuel;
    (destruct fuel as [|fuel]; [simpl in Hfuel; lia|]);
    rewrite parse_elements_S, parse_value_blank by assumption.
  - cbn [map String.concat].
    rewrite (Hx fuel indent (w2 ++ String "]" rest));
      [ | simpl in Hfuel; lia | assumption | now apply ends_token_close ].
    rewrite skip_ws_blank, (skip_ws_token "]") by (assumption || reflexivity).
    reflexivity.
  - cbn [map]. rewrite concat_cons, !append_assoc. cbn [append].
    rewrite (Hx fuel indent); [ | simpl in *; lia | assumption | reflexivity ].
    rewrite (skip_ws_token ","), strip_prefix_head by reflexivity.
    change (SerializeJSONProperty gap indent y :: map (SerializeJSONProperty gap indent) l)
      with (map (SerializeJSONProperty gap indent) (y :: l)).
    inversion Hl as [|? ? Hy Hl']; subst.
    rewrite IH; [ | assumption | assumption | assumption | simpl in *; lia ].
    now rewrite <- app_assoc.
Qed.

Lemma parse_value_space fuel s :
  parse_value fuel (String " " s) = parse_value fuel s.
Proof. exact (parse_value_blank fuel " " s eq_refl). Qed.

Lemma set_member_fresh key v acc :
  existsb (String.eqb key) (map fst acc) = false ->
  set_member key v acc = (acc ++ [(key, v)])%list.
Proof.
  induction acc as [|[k' v'] acc IH]; simpl; [reflexivity|].
  intro H. apply orb_false_iff in H as [Hk Hacc].
  now rewrite Hk, IH.
Qed.

Lemma distinct_middle (A : list string) k B :
  distinct (A ++ k :: B) = true -> existsb (String.eqb k) A = false.
Proof.
  induction A as [|a A IH]; simpl; [reflexivity|].
  intro H. apply andb_true_iff in H as [Ha HA].
  rewrite (IH HA), orb_false_r.
  apply negb_true_iff in Ha. rewrite existsb_app in Ha.
  apply orb_false_iff in Ha as [_ Ha]. simpl in Ha.
  apply orb_false_iff in Ha as [Ha _]. now rewrite String.eqb_sym.
Qed.

Lemma parse_members_serialize indent wsep w2 rest :
  blank indent -> blank wsep -> blank w2 ->
  forall l, Forall (fun m => reads_back gap (snd m)) l ->
  forall m fuel acc w,
    reads_back gap (snd m) -> blank w -> members_size (m :: l) <= fuel ->
    distinct (map fst acc ++ map fst (m :: l)) = true ->
    parse_members fuel
      (w ++ String.concat (String "," wsep)
              (map (fun m => QuoteJSONString (fst m) ++ ": " ++
                             SerializeJSONProperty gap indent (snd m)) (m :: l)) ++
       w2 ++ String "}" rest) acc =
    Some (JObject (acc ++ m :: l), rest).
Proof.
  intros Hindent Hwsep Hw2.
  induction l as [|m' l IH]; intros Hl [k v] fuel acc w Hv Hw Hfuel Hd;
    (destruct fuel as [|fuel]; [simpl in Hfuel; lia|]);
    rewrite parse_members_S, skip_ws_blank by assumption;
    cbn [map fst snd] in *.
  - cbn [String.concat]. rewrite !append_assoc.
    destruct (parse_chars_quote k
                (": " ++ SerializeJSONProperty gap indent v ++ w2 ++ String "}" rest))
      as (tail & -> & Htail).
    rewrite (skip_ws_token QUOTE), strip_prefix_head, Htail by reflexivity.
    cbn [append]. rewrite (skip_ws_token ":"), strip_prefix_head by reflexivity.
    rewrite parse_value_space.
    rewrite (Hv fuel indent (w2 ++ String "}" rest));
      [ | simpl in Hfuel; lia | assumption | now apply ends_token_close ].
    rewrite skip_ws_blank, (skip_ws_token "}") by (assumption || reflexivity).
    cbn [strip_prefix]. cbn [Ascii.eqb Bool.eqb].
    rewrite set_member_fresh by exact (distinct_middle _ _ _ Hd).
    reflexivity.
  - rewrite concat_cons, !append_assoc.
    destruct (parse_chars_quote k
                (": " ++ SerializeJSONProperty gap indent v ++ String "," wsep ++
                 String.concat (String "," wsep)
                   ((QuoteJSONString (fst m') ++ ": " ++
                     SerializeJSONProperty gap indent (snd m')) ::
                    map (fun m => QuoteJSONString (fst m) ++ ": " ++
                                  SerializeJSONProperty gap indent (snd m)) l) ++
                 w2 ++ String "}" rest))
      as (tail & -> & Htail).
    rewrite (skip_ws_token QUOTE), strip_prefix_head, Htail by reflexivity.
    cbn [append]. rewrite (skip_ws_token ":"), strip_prefix_head by reflexivity.
    rewrite parse_value_space.
    rewrite (Hv fuel indent); [ | simpl in *; lia | assumption | reflexivity ].
    rewrite (skip_ws_token ","), strip_prefix_head by reflexivity.
    rewrite set_member_fresh by exact (distinct_middle _ _ _ Hd).
    inversion Hl as [|? ? Hm' Hl']; subst.
    change ((QuoteJSONString (fst m') ++ ": " ++
             SerializeJSONProperty gap indent (snd m')) ::
            map (fun m => QuoteJSONString (fst m) ++ ": " ++
                          SerializeJSONProperty gap indent (snd m)) l)
      with (map (fun m => QuoteJSONString (fst m) ++ ": " ++
                          SerializeJSONProperty gap indent (snd m)) (m' :: l)).
    rewrite IH; [ | assumption | assumption | assumption | simpl in *; lia | ].
    + now rewrite <- app_assoc.
    + rewrite map_app. cbn [map fst]. now rewrite <- app_assoc.
Qed.

End RoundTrip.

Lemma Forall_plain (A : Type) (f : A -> json) (P : json -> Prop) (l : list A) :
  Forall (fun a => plain (f a) = true -> P (f a)) l ->
  forallb (fun a => plain (f a)) l = true ->
  Forall (fun a => P (f a)) l.
Proof.
  induction 1 as [|a l Ha _ IH]; simpl; intro Hp; constructor;
    apply andb_true_iff in Hp as [Hpa Hpl]; auto.
Qed.

Lemma parse_value_string fuel r :
  parse_value (S fuel) (String QUOTE r) =
  match parse_chars r with
  | Some (str, rest) => Some (JString str, rest)
  | None => None
  end.
Proof. reflexivity. Qed.

Lemma parse_value_array fuel r :
  parse_value (S fuel) (String "[" r) =
  match strip_prefix "]" (skip_ws r) with
  | Some rest => Some (JArray [], rest)
  | None => parse_elements fuel r []
  end.
Proof. reflexivity. Qed.

Lemma parse_value_object fuel r :
  parse_value (S fuel) (String "{" r) =
  match strip_prefix "}" (skip_ws r) with
  | Some rest => Some (JObject [], rest)
  | None => parse_members fuel r []
  end.
Proof. reflexivity. Qed.

Lemma concat_head sep a l :
  exists tail, String.concat sep (a :: l) = a ++ tail.
Proof.
  destruct l as [|b l].
  - exists "". cbn [String.concat]. now rewrite append_nil_r.
  - eexists. apply concat_cons.
Qed.

Lemma parse_value_serialize gap :
  blank gap -> forall v, plain v = true -> reads_back gap v.
Proof.
  intros Hgap v. induction v as [ |b|n|s|elements IH|members IH] using json_induction;
    intros Hp fuel indent rest Hfuel Hindent Hrest;
    (destruct fuel as [|fuel]; [simpl in Hfuel; lia|]).
  - reflexivity.
  - destruct b; reflexivity.
  - rewrite parse_value_S.
    apply plain_number_literal in Hp as (literal & -> & Hlit & Hchars & Hstart).
    cbn [SerializeJSONProperty SerializeNumber].
    destruct literal as [|c l]; [discriminate|].
    unfold starts_number in Hstart.
    destruct (number_head c Hstart) as (H1 & H2 & H3 & H4 & H5 & H6 & H7 & _).
    cbn [append]. rewrite (skip_ws_token c) by assumption. cbv zeta.
    cbn [strip_prefix]. rewrite H2, H3, H4, H5, H6, H7, Hstart.
    change (String c (l ++ rest)) with (String c l ++ rest).
    rewrite span_app by assumption. now rewrite Hlit.
  - cbn [SerializeJSONProperty].
    destruct (parse_chars_quote s rest) as (tail & -> & Htail).
    now rewrite parse_value_string, Htail.
  - cbn [SerializeJSONProperty plain] in *.
    apply (Forall_plain json (fun x => x)) in IH; [|assumption].
    destruct elements as [|x l]; [reflexivity|].
    cbn [map wrap]. rewrite !append_assoc. cbn [append].
    rewrite parse_value_array.
    inversion IH as [|? ? Hx Hl]; subst.
    assert (Hb : blank (indent ++ gap)) by now apply blank_app.
    assert (Hb' : blank (String LF (indent ++ gap))) by exact Hb.
    replace (strip_prefix "]" _) with (@None string).
    + apply (parse_elements_serialize gap (indent ++ gap)
               (String LF (indent ++ gap)) (String LF indent) rest
               Hb Hb' Hindent l Hl x fuel [] (String LF (indent ++ gap)) Hx Hb').
      simpl in Hfuel. unfold elements_size. simpl. lia.
    + symmetry.
      change (String LF ((indent ++ gap) ++ ?X)) with (String LF (indent ++ gap) ++ X).
      rewrite skip_ws_blank by assumption.
      destruct (concat_head (String "," (String LF (indent ++ gap)))
                  (SerializeJSONProperty gap (indent ++ gap) x)
                  (map (SerializeJSONProperty gap (indent ++ gap)) l))
        as [tail ->].
      rewrite append_assoc.
      simpl in Hp. apply andb_true_iff in Hp as [Hpx _].
      destruct (opens_value_skip _ (serialize_opens gap (indent ++ gap) x
                                      (tail ++ String LF (indent ++ String "]" rest)) Hpx))
        as (-> & -> & _).
      reflexivity.
  - cbn [SerializeJSONProperty plain] in *.
    apply andb_true_iff in Hp as [Hd Hp].
    apply (Forall_plain _ snd) in IH; [|assumption].
    destruct members as [|m l]; [reflexivity|].
    cbn [map wrap]. rewrite !append_assoc. cbn [append].
    rewrite parse_value_object.
    inversion IH as [|? ? Hm Hl]; subst.
    assert (Hb : blank (indent ++ gap)) by now apply blank_app.
    assert (Hb' : blank (String LF (indent ++ gap))) by exact Hb.
    replace (strip_prefix "}" _) with (@None string).
    + apply (parse_members_serialize gap (indent ++ gap)
               (String LF (indent ++ gap)) (String LF indent) rest
               Hb Hb' Hindent l Hl m fuel [] (String LF (indent ++ gap)) Hm Hb').
      * simpl in Hfuel. unfold members_size. simpl. lia.
      * exact Hd.
    + symmetry.
      change (String LF ((indent ++ gap) ++ ?X)) with (String LF (indent ++ gap) ++ X).
      rewrite skip_ws_blank by assumption.
      match goal with
      | |- context [String.concat ?sep (?a :: ?l')] =>
          destruct (concat_head sep a l') as [tail ->]
      end.
      reflexivity.
Qed.

(** *** Fuel: the length of the text is enough *)

Lemma concat_bound (A : Type) (f : A -> nat) (g : A -> string) sep l :
  2 <= String.length sep ->
  Forall (fun a => f a <= S (String.length (g a))) l ->
  fold_right (fun a n => S (f a + n)) 0 l <=
  String.length (String.concat sep (map g l)) + 2.
Proof.
  intros Hsep H. induction H as [|a l Ha Hl IH]; [simpl; lia|].
  destruct l as [|b l].
  - simpl. lia.
  - cbn [map]. rewrite concat_cons, !length_append.
    cbn [map] in IH. cbn [fold_right] in *. lia.
Qed.

Lemma wrap_length open close stepback indent p partial :
  String.length (String.concat (String "," (String LF indent)) (p :: partial)) + 2 <=
  String.length (wrap (String open "") (String close "") stepback indent (p :: partial)).
Proof.
  cbn [wrap append]. cbn [String.length].
  rewrite !length_append. cbn [String.length]. rewrite !length_append.
  cbn [String.length]. lia.
Qed.

Lemma size_le_length gap v :
  forall indent, size v <= S (String.length (SerializeJSONProperty gap indent v)).
Proof.
  induction v as [ |b|n|s|elements IH|members IH] using json_induction;
    intro indent; try (simpl; lia).
  - cbn [SerializeJSONProperty size].
    destruct elements as [|x l]; [simpl; lia|].
    apply le_n_S.
    apply Nat.le_trans with
      (String.length
         (String.concat (String "," (String LF (indent ++ gap)))
            (map (SerializeJSONProperty gap (indent ++ gap)) (x :: l))) + 2).
    + apply (concat_bound json size).
      * simpl; lia.
      * eapply Forall_impl; [|exact IH]. intros a Ha. apply Ha.
    + cbn [map]. apply wrap_length.
  - cbn [SerializeJSONProperty size].
    destruct members as [|m l]; [simpl; lia|].
    apply le_n_S.
    apply Nat.le_trans with
      (String.length
         (String.concat (String "," (String LF (indent ++ gap)))
            (map (fun m => QuoteJSONString (fst m) ++ ": " ++
                           SerializeJSONProperty gap (indent ++ gap) (snd m))
                 (m :: l))) + 2).
    + apply (concat_bound (string * json) (fun m => size (snd m))).
      * simpl; lia.
      * eapply Forall_impl; [|exact IH]. intros a Ha. cbv beta.
        specialize (Ha (indent ++ gap)). rewrite !length_append. lia.
    + cbn [map]. apply wrap_length.
Qed.

Lemma parse_stringify2 (v : json) :
  plain v = true -> JSON.parse (stringify2 v) = Some v.
Proof.
  intro Hp. unfold JSON.parse, stringify2.
  pose proof (parse_value_serialize "  " eq_refl v Hp
                (S (String.length (SerializeJSONProperty "  " "" v))) "" ""
                (size_le_length "  " v "") eq_refl eq_refl) as H.
  rewrite append_nil_r in H. now rewrite H.
Qed.

(** ** Formatting a response *)

Lemma makeApiRequest_success env net baseUrl endpoint params key t response :
  truthy (getenv env "BOT_API_KEY") = Some key ->
  (forall request, net request = Responds t response) ->
  (t < REQUEST_TIMEOUT_MS)%N ->
  ok response = true ->
  makeApiRequest env net baseUrl endpoint params =
  ([(0%N, SetTimeout REQUEST_TIMEOUT_MS);
    (0%N, Fetch (credential_request key (request_url baseUrl endpoint params)));
    (t, ClearTimeout)],
   follow t (json_body response)).
Proof.
  intros Hkey Hnet Ht Hok. unfold makeApiRequest. rewrite Hkey, Hnet.
  unfold await_fetch. apply N.ltb_lt in Ht. rewrite Ht, Hok. reflexivity.
Qed.

(** C8, as far as it holds.  When the upstream answers a tool call in
    time with a status in 200-299 and [response.json()] gives plain
    data (every number finite and other than -0, no object with a
    repeated property name), the handler returns the success envelope
    whose only text is the data pretty-printed, nothing renamed or
    converted, and parsing that text gives the data back.
    Pretty-printed means one element or property per line, indented by
    two spaces for each level, as in the two texts given. *)
Theorem plain_data_survives_formatting
    (env : process_env) (net : upstream) (name : string) (h : handler)
    (args : arguments) (key : string) (t d : N) (response : Response)
    (data : json) :
  In (name, h) tools ->
  truthy (getenv env "BOT_API_KEY") = Some key ->
  (forall request, net request = Responds t response) ->
  (t < REQUEST_TIMEOUT_MS)%N ->
  ok response = true ->
  json_body response = Settles d (Fulfilled data) ->
  plain data = true ->
  snd (h env net args) =
    Settles (t + d) (Fulfilled
      {| content := [{| type := "text"; text := formatResponse data |}];
         isError := None |}) /\
  formatResponse data = stringify2 data /\
  JSON.parse (formatResponse data) = Some data /\
  formatResponse
    (JArray [JArray [JNumber (Finite "1"); JBool true]; JNull; JArray []; JObject []]) =
    String.concat (String LF "")
      ["["; "  ["; "    1,"; "    true"; "  ],"; "  null,"; "  [],"; "  {}"; "]"] /\
  formatResponse (JObject [("a", JObject [("b", JString "c")]); ("d", JNull)]) =
    String.concat (String LF "")
      ["{";
       "  " ++ String QUOTE ("a" ++ String QUOTE ": {");
       "    " ++ String QUOTE ("b" ++ String QUOTE (": " ++ String QUOTE ("c" ++ String QUOTE "")));
       "  },";
       "  " ++ String QUOTE ("d" ++ String QUOTE ": null");
       "}"].
Proof.
  intros Hin Hkey Hnet Ht Hok Hbody Hp.
  destruct (tools_form name h Hin) as (_ & baseUrl & endpoint & params & Hh).
  split; [|split; [reflexivity | split; [now apply parse_stringify2 | split; reflexivity]]].
  rewrite Hh, (makeApiRequest_success _ _ _ _ _ key t response) by assumption.
  now rewrite Hbody.
Qed.

Lemma plain_data_survives_formatting_witness :
  let data :=
    JObject [("result",
              JObject [("timestamp", JString "2024-01-31 18:00:00");
                       ("data", JArray [JObject [("period", JString "2024-01-31");
                                                 ("rate", JNumber (Finite "35.4821"))];
                                        JNull; JBool true;
                                        JNumber (Finite "-1.5e-7")])])] in
  let response := {| status := 200; json_body := Settles 20 (Fulfilled data) |} in
  In ("get_daily_interbank_rate", get_daily_interbank_rate) tools /\
  truthy (getenv [("BOT_API_KEY", "key")] "BOT_API_KEY") = Some "key" /\
  (250 < REQUEST_TIMEOUT_MS)%N /\
  ok response = true /\
  plain data = true /\
  JSON.parse (formatResponse data) = Some data.
Proof.
  intros data response.
  assert (Hin : In ("get_daily_interbank_rate", get_daily_interbank_rate) tools)
    by (simpl; auto 10).
  assert (Ht : (250 < REQUEST_TIMEOUT_MS)%N) by reflexivity.
  assert (Hp : plain data = true) by (vm_compute; reflexivity).
  split; [exact Hin|]. split; [reflexivity|]. split; [exact Ht|].
  split; [reflexivity|]. split; [exact Hp|].
  exact (proj1 (proj2 (proj2 (plain_data_survives_formatting
           [("BOT_API_KEY", "key")] (fun _ => Responds 250 response)
           "get_daily_interbank_rate" get_daily_interbank_rate
           {| start_period := "2024-01-01"; end_period := "2024-01-31";
              currency := None |}
           "key" 250 20 response data
           Hin eq_refl (fun _ => eq_refl) Ht eq_refl eq_refl Hp)))).
Defined.

(** C8 as stated fails.  The body [1e999] is well-formed JSON;
    [response.json()] makes [Infinity] of it, which [JSON.stringify]
    writes as [null].  Likewise [-0] comes back as [0]. *)
Lemma infinite_number_is_not_read_back :
  JSON.parse "1e999" = Some (JNumber (Infinite false)) /\
  formatResponse (JNumber (Infinite false)) = "null" /\
  JSON.parse (formatResponse (JNumber (Infinite false))) = Some JNull /\
  JSON.parse "-0" = Some (JNumber NegZero) /\
  JSON.parse (formatResponse (JNumber NegZero)) = Some (JNumber (Finite "0")) /\
  ~ (forall data : json, JSON.parse (formatResponse data) = Some data).
Proof.
  repeat (split; [vm_compute; reflexivity|]).
  intro H. specialize (H (JNumber (Infinite false))).
  vm_compute in H. discriminate H.
Qed.

(* ================================================================= *)
(** * Part III: further properties of the gateway and the handlers *)
(* ================================================================= *)

Lemma deadline_expiry_witness :
  In ("get_quarterly_exchange_rate", get_quarterly_exchange_rate) tools /\
  truthy (getenv [("BOT_API_KEY", "key")] "BOT_API_KEY") = Some "key" /\
  unanswered_at_deadline (Responds 45000 {| status := 200; json_body := Pending |}) = true /\
  exists request,
    get_quarterly_exchange_rate [("BOT_API_KEY", "key")]
      (fun _ => Responds 45000 {| status := 200; json_body := Pending |})
      {| start_period := "2024-Q1"; end_period := "2024-Q4"; currency := None |} =
    ([(0%N, SetTimeout REQUEST_TIMEOUT_MS); (0%N, Fetch request);
      (REQUEST_TIMEOUT_MS, Abort); (REQUEST_TIMEOUT_MS, ClearTimeout)],
     Settles REQUEST_TIMEOUT_MS (Fulfilled (error_envelope "API request timed out"))).
Proof.
  assert (Hin : In ("get_quarterly_exchange_rate", get_quarterly_exchange_rate) tools)
    by (simpl; auto 10).
  split; [exact Hin|]. split; [reflexivity|]. split; [reflexivity|].
  exact (deadline_expiry [("BOT_API_KEY", "key")]
           (fun _ => Responds 45000 {| status := 200; json_body := Pending |})
           "get_quarterly_exchange_rate" get_quarterly_exchange_rate
           {| start_period := "2024-Q1"; end_period := "2024-Q4"; currency := None |}
           "key" Hin eq_refl (fun _ => eq_refl)).
Defined.

(** The effects of a tool call on the timer and on the network follow
    one of three scripts: nothing at all; a timer, one request and the
    clearing of the timer at the time [fetch] settled, before the
    deadline; or a timer, one request, and the abort and the clearing
    of the timer at the deadline.  So each of these effects happens at
    the deadline at the latest, at most one request is sent, and every
    timer that is set is cleared.  (The call itself may end later,
    when the body has been read.) *)
Theorem effects_follow_one_script
    (name : string) (h : handler) (env : process_env) (net : upstream)
    (args : arguments) :
  In (name, h) tools ->
  (fst (h env net args) = [] \/
   exists request t,
     (t < REQUEST_TIMEOUT_MS)%N /\
     fst (h env net args) =
       [(0%N, SetTimeout REQUEST_TIMEOUT_MS); (0%N, Fetch request); (t, ClearTimeout)] \/
     fst (h env net args) =
       [(0%N, SetTimeout REQUEST_TIMEOUT_MS); (0%N, Fetch request);
        (REQUEST_TIMEOUT_MS, Abort); (REQUEST_TIMEOUT_MS, ClearTimeout)]) /\
  Forall (fun te => (fst te <= REQUEST_TIMEOUT_MS)%N) (fst (h env net args)) /\
  List.length (requests (fst (h env net args))) <= 1 /\
  armed (fst (h env net args)) 0 = 0.
Proof.
  intro Hin.
  assert (Hscript :
    fst (h env net args) = [] \/
    exists request t,
      (t < REQUEST_TIMEOUT_MS)%N /\
      fst (h env net args) =
        [(0%N, SetTimeout REQUEST_TIMEOUT_MS); (0%N, Fetch request); (t, ClearTimeout)] \/
      fst (h env net args) =
        [(0%N, SetTimeout REQUEST_TIMEOUT_MS); (0%N, Fetch request);
         (REQUEST_TIMEOUT_MS, Abort); (REQUEST_TIMEOUT_MS, ClearTimeout)]).
  { destruct (tools_form name h Hin) as (_ & baseUrl & endpoint & params & Hh).
    rewrite Hh. unfold respond. cbn [fst]. unfold makeApiRequest.
    destruct (truthy _) as [key|]; [right|now left].
    match goal with |- context [await_fetch (net ?r)] => exists r end.
    match goal with |- context [await_fetch ?b] => destruct b as [t r|t e|] end;
      unfold await_fetch;
      try (destruct (t <? REQUEST_TIMEOUT_MS)%N eqn:Et;
           [apply N.ltb_lt in Et; exists t; left; now split|]);
      exists 0%N; right; reflexivity. }
  split; [exact Hscript|].
  destruct Hscript as [E|(request & t & [[Ht E]|E])]; rewrite E.
  - repeat split; [constructor | cbn; lia].
  - repeat split; [|cbn; lia].
    repeat constructor; cbn [fst]; try discriminate.
    now apply N.lt_le_incl.
  - repeat split; [|cbn; lia].
    repeat constructor; cbn [fst]; discriminate.
Qed.

Lemma effects_follow_one_script_witness :
  In ("get_annual_interbank_rate", get_annual_interbank_rate) tools /\
  armed (fst (get_annual_interbank_rate [("BOT_API_KEY", "key")]
                (fun _ => Fails 12 (ErrorObject "TypeError" "fetch failed"))
                {| start_period := "2020"; end_period := "2024"; currency := None |})) 0 = 0.
Proof.
  assert (Hin : In ("get_annual_interbank_rate", get_annual_interbank_rate) tools)
    by (simpl; auto 10).
  split; [exact Hin|].
  exact (proj2 (proj2 (proj2 (effects_follow_one_script
              "get_annual_interbank_rate" get_annual_interbank_rate
              [("BOT_API_KEY", "key")]
              (fun _ => Fails 12 (ErrorObject "TypeError" "fetch failed"))
              {| start_period := "2020"; end_period := "2024"; currency := None |}
              Hin)))).
Defined.

Lemma makeApiRequest_fetch_failure env net baseUrl endpoint params key t e :
  truthy (getenv env "BOT_API_KEY") = Some key ->
  (forall request, net request = Fails t e) ->
  (t < REQUEST_TIMEOUT_MS)%N ->
  makeApiRequest env net baseUrl endpoint params =
  ([(0%N, SetTimeout REQUEST_TIMEOUT_MS);
    (0%N, Fetch (credential_request key (request_url baseUrl endpoint params)));
    (t, ClearTimeout)],
   Settles t (Rejected (if is_abort e then Error "API request timed out" else e))).
Proof.
  intros Hkey Hnet Ht. unfold makeApiRequest. rewrite Hkey, Hnet.
  unfold await_fetch. apply N.ltb_lt in Ht. rewrite Ht.
  destruct (is_abort e); reflexivity.
Qed.

(** When [fetch] fails before the deadline with an error that is not
    named AbortError (a network fault), the call ends at that time
    with the error envelope carrying the message of that error, and
    the timer is cleared without having fired. *)
Theorem network_fault_is_reported_as_it_is
    (env : process_env) (net : upstream) (name : string) (h : handler)
    (args : arguments) (key : string) (t : N) (e : thrown) :
  In (name, h) tools ->
  truthy (getenv env "BOT_API_KEY") = Some key ->
  (forall request, net request = Fails t e) ->
  (t < REQUEST_TIMEOUT_MS)%N ->
  is_abort e = false ->
  exists request,
    h env net args =
    ([(0%N, SetTimeout REQUEST_TIMEOUT_MS); (0%N, Fetch request); (t, ClearTimeout)],
     Settles t (Fulfilled (error_envelope (failure_message e)))).
Proof.
  intros Hin Hkey Hnet Ht He.
  destruct (tools_form name h Hin) as (_ & baseUrl & endpoint & params & Hh).
  eexists. rewrite Hh.
  rewrite (makeApiRequest_fetch_failure _ _ _ _ _ key t e) by assumption.
  rewrite He. unfold respond. cbn [fst snd]. reflexivity.
Qed.

Lemma network_fault_is_reported_as_it_is_witness :
  In ("get_daily_interbank_rate", get_daily_interbank_rate) tools /\
  truthy (getenv [("BOT_API_KEY", "key")] "BOT_API_KEY") = Some "key" /\
  (12 < REQUEST_TIMEOUT_MS)%N /\
  is_abort (ErrorObject "TypeError" "fetch failed") = false /\
  exists request,
    get_daily_interbank_rate [("BOT_API_KEY", "key")]
      (fun _ => Fails 12 (ErrorObject "TypeError" "fetch failed"))
      {| start_period := "2024-01-01"; end_period := "2024-01-31"; currency := None |} =
    ([(0%N, SetTimeout REQUEST_TIMEOUT_MS); (0%N, Fetch request); (12%N, ClearTimeout)],
     Settles 12 (Fulfilled (error_envelope "fetch failed"))).
Proof.
  assert (Hin : In ("get_daily_interbank_rate", get_daily_interbank_rate) tools)
    by (simpl; auto 10).
  assert (Ht : (12 < REQUEST_TIMEOUT_MS)%N) by reflexivity.
  split; [exact Hin|]. split; [reflexivity|]. split; [exact Ht|].
  split; [reflexivity|].
  exact (network_fault_is_reported_as_it_is
           [("BOT_API_KEY", "key")]
           (fun _ => Fails 12 (ErrorObject "TypeError" "fetch failed"))
           "get_daily_interbank_rate" get_daily_interbank_rate
           {| start_period := "2024-01-01"; end_period := "2024-01-31"; currency := None |}
           "key" 12 (ErrorObject "TypeError" "fetch failed")
           Hin eq_refl (fun _ => eq_refl) Ht eq_refl).
Defined.

(** The [catch] block recognizes a timeout by the name of the error
    alone.  An error named AbortError with which [fetch] fails before
    the deadline, although the timer has not fired and nothing was
    aborted by the call, is reported with the timeout message, at the
    time of the failure. *)
Theorem early_abort_error_reads_as_timeout
    (env : process_env) (net : upstream) (name : string) (h : handler)
    (args : arguments) (key message : string) (t : N) :
  In (name, h) tools ->
  truthy (getenv env "BOT_API_KEY") = Some key ->
  (forall request, net request = Fails t (ErrorObject "AbortError" message)) ->
  (t < REQUEST_TIMEOUT_MS)%N ->
  exists request,
    h env net args =
    ([(0%N, SetTimeout REQUEST_TIMEOUT_MS); (0%N, Fetch request); (t, ClearTimeout)],
     Settles t (Fulfilled (error_envelope "API request timed out"))).
Proof.
  intros Hin Hkey Hnet Ht.
  destruct (tools_form name h Hin) as (_ & baseUrl & endpoint & params & Hh).
  eexists. rewrite Hh.
  rewrite (makeApiRequest_fetch_failure _ _ _ _ _ key t
             (ErrorObject "AbortError" message)) by assumption.
  reflexivity.
Qed.

Lemma early_abort_error_reads_as_timeout_witness :
  In ("get_daily_interbank_rate", get_daily_interbank_rate) tools /\
  truthy (getenv [("BOT_API_KEY", "key")] "BOT_API_KEY") = Some "key" /\
  (7 < REQUEST_TIMEOUT_MS)%N /\
  exists request,
    get_daily_interbank_rate [("BOT_API_KEY", "key")]
      (fun _ => Fails 7 (ErrorObject "AbortError" "socket closed"))
      {| start_period := "2024-01-01"; end_period := "2024-01-31"; currency := None |} =
    ([(0%N, SetTimeout REQUEST_TIMEOUT_MS); (0%N, Fetch request); (7%N, ClearTimeout)],
     Settles 7 (Fulfilled (error_envelope "API request timed out"))).
Proof.
  assert (Hin : In ("get_daily_interbank_rate", get_daily_interbank_rate) tools)
    by (simpl; auto 10).
  assert (Ht : (7 < REQUEST_TIMEOUT_MS)%N) by reflexivity.
  split; [exact Hin|]. split; [reflexivity|]. split; [exact Ht|].
  exact (early_abort_error_reads_as_timeout
           [("BOT_API_KEY", "key")]
           (fun _ => Fails 7 (ErrorObject "AbortError" "socket closed"))
           "get_daily_interbank_rate" get_daily_interbank_rate
           {| start_period := "2024-01-01"; end_period := "2024-01-31"; currency := None |}
           "key" "socket closed" 7
           Hin eq_refl (fun _ => eq_refl) Ht).
Defined.

(** A credential that is set to the empty string counts as missing:
    the call sends nothing and returns the credential error. *)
Theorem empty_credential_counts_as_missing
    (env : process_env) (net : upstream) (name : string) (h : handler)
    (args : arguments) :
  In (name, h) tools ->
  getenv env "BOT_API_KEY" = Some "" ->
  h env net args = ([], Settles 0 (Fulfilled (error_envelope CREDENTIAL_MESSAGE))).
Proof.
  intros Hin Henv.
  destruct (tools_form name h Hin) as (_ & baseUrl & endpoint & params & Hh).
  rewrite Hh, makeApiRequest_no_credential by now rewrite Henv. reflexivity.
Qed.

Lemma empty_credential_counts_as_missing_witness :
  In ("get_monthly_exchange_rate", get_monthly_exchange_rate) tools /\
  getenv [("BOT_API_KEY", "")] "BOT_API_KEY" = Some "" /\
  get_monthly_exchange_rate [("BOT_API_KEY", "")] (fun _ => Silent)
    {| start_period := "2024-01"; end_period := "2024-12"; currency := Some "EUR" |} =
  ([], Settles 0 (Fulfilled (error_envelope CREDENTIAL_MESSAGE))).
Proof.
  assert (Hin : In ("get_monthly_exchange_rate", get_monthly_exchange_rate) tools)
    by (simpl; auto 10).
  split; [exact Hin|]. split; [reflexivity|].
  exact (empty_credential_counts_as_missing
           [("BOT_API_KEY", "")] (fun _ => Silent)
           "get_monthly_exchange_rate" get_monthly_exchange_rate
           {| start_period := "2024-01"; end_period := "2024-12"; currency := Some "EUR" |}
           Hin eq_refl).
Defined.

(** When a response with a status in 200-299 arrives in time and
    reading its body fails, whatever the error (a syntax error of the
    JSON text, or even an AbortError), the call ends when the reading
    ends, with the error envelope carrying the message of that error:
    the [catch] block of the gateway, which would turn an AbortError
    into the timeout message, is not in force any more. *)
Theorem body_failure_passes_through
    (env : process_env) (net : upstream) (name : string) (h : handler)
    (args : arguments) (key : string) (t d : N) (response : Response)
    (e : thrown) :
  In (name, h) tools ->
  truthy (getenv env "BOT_API_KEY") = Some key ->
  (forall request, net request = Responds t response) ->
  (t < REQUEST_TIMEOUT_MS)%N ->
  ok response = true ->
  json_body response = Settles d (Rejected e) ->
  exists request,
    h env net args =
    ([(0%N, SetTimeout REQUEST_TIMEOUT_MS); (0%N, Fetch request); (t, ClearTimeout)],
     Settles (t + d) (Fulfilled (error_envelope (failure_message e)))).
Proof.
  intros Hin Hkey Hnet Ht Hok Hbody.
  destruct (tools_form name h Hin) as (_ & baseUrl & endpoint & params & Hh).
  eexists. rewrite Hh.
  rewrite (makeApiRequest_success _ _ _ _ _ key t response) by assumption.
  rewrite Hbody. reflexivity.
Qed.

Lemma body_failure_passes_through_witness :
  let response :=
    {| status := 200;
       json_body := Settles 3 (Rejected (ErrorObject "SyntaxError"
                                           "Unexpected token < in JSON at position 0")) |} in
  In ("get_daily_exchange_rate", get_daily_exchange_rate) tools /\
  truthy (getenv [("BOT_API_KEY", "key")] "BOT_API_KEY") = Some "key" /\
  (80 < REQUEST_TIMEOUT_MS)%N /\
  ok response = true /\
  exists request,
    get_daily_exchange_rate [("BOT_API_KEY", "key")] (fun _ => Responds 80 response)
      {| start_period := "2024-01-01"; end_period := "2024-01-31"; currency := None |} =
    ([(0%N, SetTimeout REQUEST_TIMEOUT_MS); (0%N, Fetch request); (80%N, ClearTimeout)],
     Settles 83 (Fulfilled (error_envelope "Unexpected token < in JSON at position 0"))).
Proof.
  intro response.
  assert (Hin : In ("get_daily_exchange_rate", get_daily_exchange_rate) tools)
    by (simpl; auto 10).
  assert (Ht : (80 < REQUEST_TIMEOUT_MS)%N) by reflexivity.
  split; [exact Hin|]. split; [reflexivity|]. split; [exact Ht|].
  split; [reflexivity|].
  exact (body_failure_passes_through
           [("BOT_API_KEY", "key")] (fun _ => Responds 80 response)
           "get_daily_exchange_rate" get_daily_exchange_rate
           {| start_period := "2024-01-01"; end_period := "2024-01-31"; currency := None |}
           "key" 80 3 response
           (ErrorObject "SyntaxError" "Unexpected token < in JSON at position 0")
           Hin eq_refl (fun _ => eq_refl) Ht eq_refl eq_refl).
Defined.

(** ** Validated arguments and the request *)

Lemma registrations_are_the_tools :
  map (fun r => (tool_name r, run r)) registrations = tools.
Proof. reflexivity. Qed.

Lemma urlencode_unreserved (s : string) :
  forall_chars unreserved s = true -> urlencode s = s.
Proof.
  induction s as [|c s IH]; [reflexivity|]. cbn [forall_chars urlencode].
  intro H. apply andb_true_iff in H as [Hc Hs]. rewrite (IH Hs).
  unfold urlencode_char. unfold unreserved in Hc. cbv zeta in Hc.
  now rewrite Hc.
Qed.

Lemma digit_unreserved (c : ascii) : is_digit c = true -> unreserved c = true.
Proof. unfold is_digit, unreserved. cbv zeta. intros ->. reflexivity. Qed.

Lemma digits_unreserved n s : digits n s -> forall_chars unreserved s = true.
Proof.
  intros [_ H]. induction s as [|c s IH]; [reflexivity|].
  simpl in *. apply andb_true_iff in H as [Hc Hs].
  now rewrite (digit_unreserved _ Hc), IH.
Qed.

Lemma digits_length n s : digits n s -> String.length s = n.
Proof. now intros [H _]. Qed.

Lemma get_past (y t : string) (k n : nat) :
  String.length y = n -> String.get (k + n) (y ++ t) = String.get k t.
Proof. intros <-. symmetry. apply String.append_correct2. Qed.

(** A string a period schema accepts is made of digits, dashes and
    [Q], and has the length of its format. *)
Lemma daily_shape (s : string) :
  accepts dailyPeriodSchema s = true ->
  forall_chars unreserved s = true /\ String.length s = 10.
Proof.
  intro H. apply daily_schema_grammar in H as (y & m & d & -> & Hy & Hm & Hd).
  rewrite !forall_chars_app, !length_append,
    (digits_unreserved _ _ Hy), (digits_unreserved _ _ Hm), (digits_unreserved _ _ Hd),
    (digits_length _ _ Hy), (digits_length _ _ Hm), (digits_length _ _ Hd).
  split; reflexivity.
Qed.

Lemma monthly_shape (s : string) :
  accepts monthlyPeriodSchema s = true ->
  forall_chars unreserved s = true /\ String.length s = 7 /\
  exists c, String.get 5 s = Some c /\ is_digit c = true.
Proof.
  intro H. apply monthly_schema_grammar in H as (y & m & -> & Hy & Hm).
  rewrite !forall_chars_app, !length_append,
    (digits_unreserved _ _ Hy), (digits_unreserved _ _ Hm),
    (digits_length _ _ Hy), (digits_length _ _ Hm).
  split; [reflexivity|]. split; [reflexivity|].
  change 5 with (1 + 4).
  rewrite (get_past y ("-" ++ m) 1 4 (digits_length _ _ Hy)).
  destruct Hm as [Hl Hd]. destruct m as [|c m]; [discriminate|].
  exists c. simpl in Hd. apply andb_true_iff in Hd as [Hc _]. now split.
Qed.

Lemma quarterly_shape (s : string) :
  accepts quarterlyPeriodSchema s = true ->
  forall_chars unreserved s = true /\ String.length s = 7 /\
  String.get 5 s = Some "Q"%char.
Proof.
  intro H. apply quarterly_schema_grammar in H as (y & q & -> & Hy & Hq).
  rewrite !forall_chars_app, !length_append,
    (digits_unreserved _ _ Hy), (digits_length _ _ Hy).
  split; [|split; [reflexivity|]].
  - simpl in Hq. destruct Hq as [<-|[<-|[<-|[<-|[]]]]]; reflexivity.
  - change 5 with (1 + 4).
    now rewrite (get_past y ("-Q" ++ String q "") 1 4 (digits_length _ _ Hy)).
Qed.

Lemma annual_shape (s : string) :
  accepts annualPeriodSchema s = true ->
  forall_chars unreserved s = true /\ String.length s = 4.
Proof.
  intro H. destruct (proj1 (annual_schema_grammar s) H) as [Hl Hd].
  split; [now apply (digits_unreserved 4) | exact Hl].
Qed.

(** A string fits at most one of the four period formats, and a
    string that fits one has the length of that format: 10, 7, 7 and 4
    characters for the daily, monthly, quarterly and annual ones. *)
Theorem period_formats_are_exclusive (s : string) :
  accepts dailyPeriodSchema s && negb (Nat.eqb (String.length s) 10) = false /\
  accepts monthlyPeriodSchema s && negb (Nat.eqb (String.length s) 7) = false /\
  accepts quarterlyPeriodSchema s && negb (Nat.eqb (String.length s) 7) = false /\
  accepts annualPeriodSchema s && negb (Nat.eqb (String.length s) 4) = false /\
  accepts dailyPeriodSchema s && accepts monthlyPeriodSchema s = false /\
  accepts dailyPeriodSchema s && accepts quarterlyPeriodSchema s = false /\
  accepts dailyPeriodSchema s && accepts annualPeriodSchema s = false /\
  accepts monthlyPeriodSchema s && accepts quarterlyPeriodSchema s = false /\
  accepts monthlyPeriodSchema s && accepts annualPeriodSchema s = false /\
  accepts quarterlyPeriodSchema s && accepts annualPeriodSchema s = false.
Proof.
  pose proof (daily_shape s) as Hd.
  pose proof (monthly_shape s) as Hm.
  pose proof (quarterly_shape s) as Hq.
  pose proof (annual_shape s) as Ha.
  destruct (accepts dailyPeriodSchema s);
    [destruct (Hd eq_refl) as [_ Ld]|clear Hd];
  (destruct (accepts monthlyPeriodSchema s);
    [destruct (Hm eq_refl) as (_ & Lm & c & Gm & Dc)|clear Hm]);
  (destruct (accepts quarterlyPeriodSchema s);
    [destruct (Hq eq_refl) as (_ & Lq & Gq)|clear Hq]);
  (destruct (accepts annualPeriodSchema s);
    [destruct (Ha eq_refl) as [_ La]|clear Ha]);
  try congruence;
  try (rewrite Gq in Gm; injection Gm as <-; discriminate Dc);
  repeat match goal with
         | H : String.length s = _ |- _ => rewrite H; clear H
         end;
  repeat split; reflexivity.
Qed.

(** ** From validated arguments to the request *)

Lemma registered_period (r : registration) (s : string) :
  In r registrations ->
  accepts (period r) s = true ->
  forall_chars unreserved s = true /\ s <> "".
Proof.
  intros Hin H.
  assert (forall n, String.length s = S n -> s <> "") as Hne
    by (intros n E ->; discriminate E).
  simpl in Hin.
  repeat (destruct Hin as [<-|Hin]; cbn [period] in H;
          [ first [ destruct (daily_shape s H) as [? ?]
                  | destruct (monthly_shape s H) as (? & ? & _)
                  | destruct (quarterly_shape s H) as (? & ? & _)
                  | destruct (annual_shape s H) as [? ?] ];
            split; [assumption | eapply Hne; eassumption]
          | ]).
  destruct Hin.
Qed.

Lemma accepted_currency (c : string) :
  is_success (currencySchema (Some c)) = true ->
  forall_chars unreserved c = true /\ c <> "".
Proof.
  unfold currencySchema.
  destruct (existsb (String.eqb c) SUPPORTED_CURRENCIES) eqn:E; [|discriminate].
  intros _. apply existsb_eqb_In in E.
  assert (Hall : forallb (fun c => forall_chars unreserved c && nonempty c)
                   SUPPORTED_CURRENCIES = true) by reflexivity.
  rewrite forallb_forall in Hall. specialize (Hall c E).
  apply andb_true_iff in Hall as [H1 H2]. split; [exact H1|].
  intros ->. discriminate H2.
Qed.

Lemma or_empty_value (c : string) : c <> "" -> or_empty (Some c) = c.
Proof. destruct c; [congruence | reflexivity]. Qed.

(** When the arguments of a call satisfy the shape the tool is
    registered with and the credential is set, the one request of the
    call is a GET of the URL made of the base of the tool's family,
    the tool's path and the query
    [?start_period=...&end_period=...], followed by [&currency=...]
    for a tool of the exchange family called with a currency, with
    the arguments written as they are: validated arguments need no
    escaping.  The credential is the Authorization header, as it is. *)
Theorem validated_arguments_are_sent_verbatim
    (r : registration) (args : arguments) (env : process_env)
    (net : upstream) (key : string) :
  In r registrations ->
  valid r args = true ->
  truthy (getenv env "BOT_API_KEY") = Some key ->
  In (tool_name r, run r) tools /\
  requests (fst (run r env net args)) =
    [{| method := "GET";
        url := base r ++ path r ++
               "?start_period=" ++ start_period args ++
               "&end_period=" ++ end_period args ++ currency_suffix r args;
        headers := [("Authorization", key); ("Accept", "application/json")] |}].
Proof.
  intros Hin Hvalid Hkey.
  split.
  { rewrite <- registrations_are_the_tools.
    apply (in_map (fun r => (tool_name r, run r))). exact Hin. }
  unfold valid in Hvalid.
  apply andb_true_iff in Hvalid as [Hvalid Hcur].
  apply andb_true_iff in Hvalid as [Hsp Hep].
  destruct (registered_period r _ Hin Hsp) as [Usp Nsp].
  destruct (registered_period r _ Hin Hep) as [Uep Nep].
  assert (Hreq : forall baseUrl endpoint params,
             requests (fst (respond (makeApiRequest env net baseUrl endpoint params))) =
             [credential_request key
                {| location := baseUrl ++ endpoint; searchParams := present params |}]).
  { intros. unfold respond. cbn [fst].
    rewrite (makeApiRequest_requests _ _ _ _ _ key) by assumption.
    now rewrite request_url_spec. }
  unfold run, base, currency_suffix.
  destruct (with_currency r).
  - unfold exchange. rewrite Hreq. unfold currency_params.
    rewrite present_cons, (present_cons (_, Some (end_period args))).
    rewrite !present_value by assumption.
    destruct (currency args) as [c|].
    + destruct (accepted_currency c Hcur) as [Uc Nc].
      rewrite (or_empty_value c Nc), (present_value _ c Nc).
      unfold credential_request, URL_toString.
      cbn [app searchParams location map String.concat fst snd].
      rewrite (urlencode_unreserved _ Usp), (urlencode_unreserved _ Uep),
        (urlencode_unreserved _ Uc).
      reflexivity.
    + unfold credential_request, URL_toString.
      cbn [app searchParams location map String.concat fst snd or_empty truthy present
           flat_map].
      rewrite (urlencode_unreserved _ Usp), (urlencode_unreserved _ Uep).
      rewrite append_nil_r. reflexivity.
  - unfold interbank. rewrite Hreq. unfold period_params.
    rewrite present_cons. rewrite !present_value by assumption.
    unfold credential_request, URL_toString.
    cbn [app searchParams location map String.concat fst snd].
    rewrite (urlencode_unreserved _ Usp), (urlencode_unreserved _ Uep).
    rewrite append_nil_r. reflexivity.
Qed.

Lemma validated_arguments_are_sent_verbatim_witness :
  let r := {| tool_name := "get_daily_exchange_rate"; period := dailyPeriodSchema;
              with_currency := true; path := "/DAILY_AVG_EXG_RATE/" |} in
  let args := {| start_period := "2024-01-01"; end_period := "2024-01-31";
                 currency := Some "JPY" |} in
  In r registrations /\
  valid r args = true /\
  truthy (getenv [("BOT_API_KEY", "key")] "BOT_API_KEY") = Some "key" /\
  requests (fst (run r [("BOT_API_KEY", "key")] (fun _ => Silent) args)) =
    [{| method := "GET";
        url := "https://gateway.api.bot.or.th/Stat-ExchangeRate/v2/DAILY_AVG_EXG_RATE/?start_period=2024-01-01&end_period=2024-01-31&currency=JPY";
        headers := [("Authorization", "key"); ("Accept", "application/json")] |}].
Proof.
  intros r args.
  assert (Hin : In r registrations) by (simpl; auto 10).
  assert (Hv : valid r args = true) by reflexivity.
  split; [exact Hin|]. split; [exact Hv|]. split; [reflexivity|].
  exact (proj2 (validated_arguments_are_sent_verbatim
                  r args [("BOT_API_KEY", "key")] (fun _ => Silent) "key"
                  Hin Hv eq_refl)).
Defined.

(** ** Formatting: what is lost *)

Lemma serialize_normalize gap v :
  forall indent,
    SerializeJSONProperty gap indent (normalize v) = SerializeJSONProperty gap indent v.
Proof.
  induction v as [ |b|n|s|elements IH|members IH] using json_induction;
    intro indent; try reflexivity.
  - destruct n as [literal| |neg]; reflexivity.
  - cbn [normalize SerializeJSONProperty]. f_equal.
    rewrite map_map. apply map_ext_Forall.
    eapply Forall_impl; [|exact IH]. intros a Ha. apply Ha.
  - cbn [normalize SerializeJSONProperty]. f_equal.
    rewrite map_map. apply map_ext_Forall.
    eapply Forall_impl; [|exact IH]. intros a Ha. cbn [fst snd].
    now rewrite Ha.
Qed.

Lemma plain_normalize v : representable v = true -> plain (normalize v) = true.
Proof.
  induction v as [ |b|n|s|elements IH|members IH] using json_induction;
    intro H; try reflexivity.
  - destruct n as [literal| |neg]; [exact H|reflexivity|reflexivity].
  - cbn [normalize plain representable] in *.
    rewrite forallb_forall in *. intros y Hy.
    apply in_map_iff in Hy as (x & <- & Hx).
    rewrite Forall_forall in IH. apply IH; auto.
  - cbn [normalize plain representable] in *.
    apply andb_true_iff in H as [Hd Hm].
    assert (E : map fst (map (fun m => (fst m, normalize (snd m))) members) =
                map fst members)
      by (rewrite map_map; apply map_ext; reflexivity).
    rewrite E, Hd. cbn [andb].
    rewrite forallb_forall in *. intros y Hy.
    apply in_map_iff in Hy as (x & <- & Hx). cbn [snd].
    rewrite Forall_forall in IH. apply IH; auto.
Qed.

Lemma normalize_plain v : plain v = true -> normalize v = v.
Proof.
  induction v as [ |b|n|s|elements IH|members IH] using json_induction;
    intro H; try reflexivity.
  - destruct n as [literal| |neg]; [reflexivity|discriminate H|discriminate H].
  - cbn [normalize plain] in *. f_equal.
    rewrite forallb_forall in H. rewrite Forall_forall in IH.
    rewrite <- (map_id elements) at 2. apply map_ext_in. auto.
  - cbn [normalize plain] in *. f_equal.
    apply andb_true_iff in H as [_ H].
    rewrite forallb_forall in H. rewrite Forall_forall in IH.
    rewrite <- (map_id members) at 2. apply map_ext_in.
    intros [k x] Hx. cbn [fst snd]. f_equal.
    apply (IH (k, x) Hx). exact (H _ Hx).
Qed.

(** The text [formatResponse] makes of any data parses, and it parses
    to the data in which every number that is not finite is replaced
    by [null] and every -0 by 0: these replacements are all that
    formatting loses.  Data without such numbers is its own
    replacement. *)
Theorem formatting_loses_only_odd_numbers (data : json) :
  representable data = true ->
  JSON.parse (formatResponse data) = Some (normalize data) /\
  formatResponse (normalize data) = formatResponse data /\
  plain (normalize data) = true /\
  normalize (normalize data) = normalize data.
Proof.
  intro H. pose proof (plain_normalize data H) as Hp.
  unfold formatResponse, stringify2.
  split; [|split; [apply serialize_normalize | split; [exact Hp | now apply normalize_plain]]].
  rewrite <- (serialize_normalize "  " data "").
  exact (parse_stringify2 (normalize data) Hp).
Qed.

Lemma formatting_loses_only_odd_numbers_witness :
  let data :=
    JObject [("rates", JArray [JNumber (Finite "35.5"); JNumber (Infinite true);
                               JNumber NegZero; JString "n/a"])] in
  representable data = true /\
  JSON.parse (formatResponse data) =
    Some (JObject [("rates", JArray [JNumber (Finite "35.5"); JNull;
                                     JNumber (Finite "0"); JString "n/a"])]).
Proof.
  intro data.
  assert (H : representable data = true) by (vm_compute; reflexivity).
  split; [exact H|].
  exact (proj1 (formatting_loses_only_odd_numbers data H)).
Defined.

(** ** The status in the message *)

(** The message of a status failure identifies the status: two
    statuses with the same message are the same status. *)
Theorem status_message_identifies_status (a b : N) :
  "API request failed with status " ++ N_toString a =
  "API request failed with status " ++ N_toString b ->
  a = b.
Proof.
  intro H.
  assert (E : N_toString a = N_toString b).
  { pose proof (strip_prefix_app "API request failed with status " (N_toString a)) as Ha.
    rewrite H, strip_prefix_app in Ha. now injection Ha. }
  unfold N_toString in E.
  apply DecimalN.Unsigned.to_uint_inj.
  pose proof (NilEmpty.usu (N.to_uint a)) as Ua.
  rewrite E, NilEmpty.usu in Ua. now injection Ua.
Qed.

Lemma status_message_identifies_status_witness :
  "API request failed with status " ++ N_toString 404 =
  "API request failed with status " ++ N_toString (400 + 4) /\
  404%N = (400 + 4)%N.
Proof.
  assert (H : "API request failed with status " ++ N_toString 404 =
              "API request failed with status " ++ N_toString (400 + 4)) by reflexivity.
  split; [exact H|].
  exact (status_message_identifies_status 404 (400 + 4) H).
Defined.

(** ** Descriptions *)

(** For a code that is not the name of a member of [Object.prototype],
    the description is a string that is empty only if the code is:
    the entry of the table, and the code itself when the table has no
    entry.  For the name of such a member that the table does not
    hold, like [constructor] or [__proto__], the result is not a
    string but the inherited member. *)
Theorem description_is_never_empty (code : string) :
  code <> "" ->
  (inherited code = None ->
   exists description,
     getCurrencyDescription code = Text description /\ description <> "" /\
     (lookup code descriptions = None -> description = code)) /\
  (forall member,
     lookup code descriptions = None -> inherited code = Some member ->
     getCurrencyDescription code = member /\ member <> Text code) /\
  getCurrencyDescription "constructor" = InheritedFunction /\
  getCurrencyDescription "toString" = InheritedFunction /\
  getCurrencyDescription "__proto__" = PrototypeObject /\
  getCurrencyDescription "THB" = Text "THB" /\
  getCurrencyDescription "EUR" = Text "Euro".
Proof.
  intro H. split; [|split; [|repeat split; reflexivity]].
  - intro Hi. unfold getCurrencyDescription, descriptions_get. rewrite Hi.
    destruct (lookup code descriptions) as [[|c d]|].
    + exists code. split; [reflexivity|]. split; [assumption | discriminate].
    + exists (String c d). split; [reflexivity|]. split; discriminate.
    + exists code. split; [reflexivity|]. split; [assumption | reflexivity].
  - intros member Hown Hi. unfold getCurrencyDescription, descriptions_get.
    rewrite Hown, Hi. unfold inherited in Hi.
    destruct (String.eqb code "__proto__").
    + injection Hi as <-. split; [reflexivity | discriminate].
    + destruct (existsb _ _); [|discriminate].
      injection Hi as <-. split; [reflexivity | discriminate].
Qed.

Lemma description_is_never_empty_witness :
  "THB" <> "" /\ inherited "THB" = None /\
  exists description,
    getCurrencyDescription "THB" = Text description /\ description <> "" /\
    (lookup "THB" descriptions = None -> description = "THB").
Proof.
  assert (H : "THB" <> "") by discriminate.
  split; [exact H|]. split; [reflexivity|].
  exact (proj1 (description_is_never_empty "THB" H) eq_refl).
Defined.

(** ** The query of a request *)

Lemma urldecode_urlencode_char c t :
  urldecode (urlencode_char c ++ t) = String c (urldecode t).
Proof. destruct c as [[] [] [] [] [] [] [] []]; reflexivity. Qed.

Lemma urldecode_urlencode s t :
  urldecode (urlencode s ++ t) = s ++ urldecode t.
Proof.
  induction s as [|c s IH]; [reflexivity|].
  cbn [urlencode]. rewrite append_assoc, urldecode_urlencode_char, IH.
  reflexivity.
Qed.

Lemma urlencode_char_avoids c :
  forall_chars (avoids "&") (urlencode_char c) = true /\
  forall_chars (avoids "=") (urlencode_char c) = true.
Proof. destruct c as [[] [] [] [] [] [] [] []]; split; reflexivity. Qed.

Lemma urlencode_avoids s :
  forall_chars (avoids "&") (urlencode s) = true /\
  forall_chars (avoids "=") (urlencode s) = true.
Proof.
  induction s as [|c s [IH1 IH2]]; [split; reflexivity|].
  cbn [urlencode]. rewrite !forall_chars_app, IH1, IH2.
  destruct (urlencode_char_avoids c) as [-> ->]. split; reflexivity.
Qed.

Lemma fields_last sep e :
  forall_chars (avoids sep) e = true -> fields sep e = [e].
Proof.
  induction e as [|c e IH]; [reflexivity|]. cbn [forall_chars fields].
  intro H. apply andb_true_iff in H as [Hc He].
  unfold avoids in Hc. apply negb_true_iff in Hc. now rewrite Hc, (IH He).
Qed.

Lemma fields_next sep e rest :
  forall_chars (avoids sep) e = true ->
  fields sep (e ++ String sep rest) = e :: fields sep rest.
Proof.
  induction e as [|c e IH]; cbn [forall_chars fields append].
  - intros _. now rewrite Ascii.eqb_refl.
  - intro H. apply andb_true_iff in H as [Hc He].
    unfold avoids in Hc. apply negb_true_iff in Hc. now rewrite Hc, (IH He).
Qed.

Lemma cut_at_equals name value :
  forall_chars (avoids "=") name = true ->
  cut (name ++ String "=" value) = (name, value).
Proof.
  induction name as [|c name IH]; cbn [forall_chars cut append].
  - reflexivity.
  - intro H. apply andb_true_iff in H as [Hc Hn].
    unfold avoids in Hc. apply negb_true_iff in Hc. now rewrite Hc, (IH Hn).
Qed.

Lemma nonempty_app_cons a c b : nonempty (a ++ String c b) = true.
Proof. destruct a; reflexivity. Qed.

Lemma parse_query_pairs (ps : list (string * string)) :
  parse_query
    (String.concat "&"
       (map (fun p => urlencode (fst p) ++ "=" ++ urlencode (snd p)) ps)) = ps.
Proof.
  assert (Hamp : forall p : string * string,
             forall_chars (avoids "&") (urlencode (fst p) ++ "=" ++ urlencode (snd p)) = true).
  { intro p. rewrite !forall_chars_app.
    rewrite (proj1 (urlencode_avoids (fst p))), (proj1 (urlencode_avoids (snd p))).
    reflexivity. }
  assert (Hone : forall p : string * string,
             (let (name, value) := cut (urlencode (fst p) ++ "=" ++ urlencode (snd p)) in
              (urldecode name, urldecode value)) = p).
  { intros [n v]. cbn [fst snd]. cbn [append].
    rewrite cut_at_equals by apply urlencode_avoids.
    rewrite <- (append_nil_r (urlencode n)), <- (append_nil_r (urlencode v)).
    rewrite !urldecode_urlencode. cbn [urldecode]. now rewrite !append_nil_r. }
  induction ps as [|p ps IH]; [reflexivity|].
  destruct ps as [|q ps].
  - cbn [map String.concat]. unfold parse_query.
    rewrite (fields_last "&") by apply Hamp.
    cbn [filter]. cbn [append]. rewrite nonempty_app_cons. cbn [map].
    change (String "=" (urlencode (snd p))) with ("=" ++ urlencode (snd p)).
    now rewrite Hone.
  - cbn [map]. rewrite concat_cons. cbn [map] in IH.
    unfold parse_query in *. rewrite append_assoc. cbn [append].
    change (String "=" (urlencode (snd p) ++ ?x))
      with (("=" ++ urlencode (snd p)) ++ x).
    rewrite <- append_assoc.
    rewrite (fields_next "&") by apply Hamp.
    cbn [filter]. cbn [append]. rewrite nonempty_app_cons. cbn [map].
    change (String "=" (urlencode (snd p))) with ("=" ++ urlencode (snd p)).
    rewrite Hone. f_equal. exact IH.
Qed.

(** For each base and endpoint the source calls the gateway with, and
    whatever the parameters are, the receiver reads back from the
    query of the request exactly the entries that have a non-empty
    value, names and values as they were given: a value that contains
    [&], [=], [+], [%] or a space does not add, split or alter a
    parameter.  The URL is the base followed by the endpoint, and by
    [?] and the query when there is one. *)
Theorem query_reads_back_as_the_parameters
    (baseUrl endpoint : string) (params : list (string * option string)) :
  In (baseUrl, endpoint) gateway_calls ->
  parse_query (query (request_url baseUrl endpoint params)) = present params /\
  URL_toString (request_url baseUrl endpoint params) =
    baseUrl ++ endpoint ++
    match present params with
    | [] => ""
    | _ :: _ => "?" ++ query (request_url baseUrl endpoint params)
    end.
Proof.
  intros _.
  rewrite request_url_spec. unfold query, URL_toString. cbn [searchParams location].
  split; [apply parse_query_pairs|].
  destruct (present params) as [|p ps].
  - now rewrite append_nil_r.
  - now rewrite append_assoc.
Qed.

Lemma query_reads_back_as_the_parameters_witness :
  In (EXCHANGE_RATE_BASE_URL, "/DAILY_AVG_EXG_RATE/") gateway_calls /\
  parse_query (query (request_url EXCHANGE_RATE_BASE_URL "/DAILY_AVG_EXG_RATE/"
                        [("a", Some "1&b=2"); ("skip", Some ""); ("c d", Some "50% + tax");
                         ("none", None)])) =
  [("a", "1&b=2"); ("c d", "50% + tax")].
Proof.
  assert (Hin : In (EXCHANGE_RATE_BASE_URL, "/DAILY_AVG_EXG_RATE/") gateway_calls)
    by (simpl; auto 10).
  split; [exact Hin|].
  exact (proj1 (query_reads_back_as_the_parameters _ _ _ Hin)).
Defined.

(** ** The credential stays in its header *)

(** The credential reaches the request as the Authorization header and
    nowhere else: with two different non-empty credentials, and a
    network that treats both alike, a call sends the same method and
    URL and returns the same result. *)
Theorem credential_is_sent_in_the_header_only
    (name : string) (h : handler) (env1 env2 : process_env)
    (key1 key2 : string) (b : behaviour) (args : arguments) :
  In (name, h) tools ->
  truthy (getenv env1 "BOT_API_KEY") = Some key1 ->
  truthy (getenv env2 "BOT_API_KEY") = Some key2 ->
  let run1 := h env1 (fun _ => b) args in
  let run2 := h env2 (fun _ => b) args in
  snd run1 = snd run2 /\
  map method (requests (fst run1)) = map method (requests (fst run2)) /\
  map url (requests (fst run1)) = map url (requests (fst run2)) /\
  map headers (requests (fst run1)) =
    [[("Authorization", key1); ("Accept", "application/json")]] /\
  map headers (requests (fst run2)) =
    [[("Authorization", key2); ("Accept", "application/json")]].
Proof.
  intros Hin H1 H2.
  destruct (tools_form name h Hin) as (_ & baseUrl & endpoint & params & Hh).
  cbv zeta. rewrite !Hh. unfold respond. cbn [fst snd].
  rewrite (makeApiRequest_requests _ _ _ _ _ key1 H1).
  rewrite (makeApiRequest_requests _ _ _ _ _ key2 H2).
  split; [|repeat split; reflexivity].
  unfold makeApiRequest. rewrite H1, H2.
  destruct (await_fetch b) as [[fired t] fetched]. reflexivity.
Qed.

Lemma credential_is_sent_in_the_header_only_witness :
  let b := Responds 10 {| status := 500; json_body := Pending |} in
  let args := {| start_period := "2024-01"; end_period := "2024-02"; currency := None |} in
  In ("get_monthly_interbank_rate", get_monthly_interbank_rate) tools /\
  truthy (getenv [("BOT_API_KEY", "alpha")] "BOT_API_KEY") = Some "alpha" /\
  truthy (getenv [("BOT_API_KEY", "beta")] "BOT_API_KEY") = Some "beta" /\
  snd (get_monthly_interbank_rate [("BOT_API_KEY", "alpha")] (fun _ => b) args) =
  snd (get_monthly_interbank_rate [("BOT_API_KEY", "beta")] (fun _ => b) args).
Proof.
  intros b args.
  assert (Hin : In ("get_monthly_interbank_rate", get_monthly_interbank_rate) tools)
    by (simpl; auto 10).
  split; [exact Hin|]. split; [reflexivity|]. split; [reflexivity|].
  exact (proj1 (credential_is_sent_in_the_header_only
                  "get_monthly_interbank_rate" get_monthly_interbank_rate
                  [("BOT_API_KEY", "alpha")] [("BOT_API_KEY", "beta")]
                  "alpha" "beta" b args Hin eq_refl eq_refl)).
Defined.
